(** * FineTune_Dino2/datasets.py: data loading glue for segmentation fine-tuning

    A shallow embedding of [datasets.py] and of the parts of its
    collaborators (numpy boolean indexing, the augmentation library's
    [Compose] protocol, [list.sort], [torch.stack]) that its behaviour
    depends on, followed by the properties of the specification. *)

From Stdlib Require Import ZArith QArith Lqa String Ascii Lia.
From Stdlib Require Import Sorting.Sorted Sorting.Permutation.
From stdpp Require Import base tactics option list sorting.

Open Scope Z_scope.

(** ** Python outcomes *)

(** The exceptions the modelled code can raise. *)
Inductive exn : Type :=
  | IndexError      (* list index out of range *)
  | CvError         (* cv2.error, e.g. cvtColor / resize on an empty image *)
  | RuntimeError    (* torch.stack on an empty or ragged tensor list *)
  | ValueError      (* list.index on a missing element *)
  | KeyError.       (* a pipeline target that is missing *)

Inductive result (A : Type) : Type :=
  | Ok (a : A)
  | Raise (e : exn).
Arguments Ok {A} a.
Arguments Raise {A} e.

Definition rbind {A B} (r : result A) (k : A -> result B) : result B :=
  match r with
  | Ok a => k a
  | Raise e => Raise e
  end.

Definition is_ok {A} (r : result A) : bool :=
  match r with Ok _ => true | Raise _ => false end.

(** ** Arrays in height-width-channel layout *)

(** [cv2.imread(..., cv2.IMREAD_COLOR)] always decodes to three channels of
    8-bit samples; [astype('float32')] represents each sample exactly, so
    sample values are modelled as integers. *)
Record px (X : Type) : Type := Px { ch0 : X; ch1 : X; ch2 : X }.
Arguments Px {X} _ _ _.
Arguments ch0 {X} _.
Arguments ch1 {X} _.
Arguments ch2 {X} _.

Definition px_map {X Y} (f : X -> Y) (p : px X) : px Y :=
  Px (f (ch0 p)) (f (ch1 p)) (f (ch2 p)).

Definition px_map2 {X Y V} (f : X -> Y -> V) (p : px X) (q : px Y) : px V :=
  Px (f (ch0 p) (ch0 q)) (f (ch1 p) (ch1 q)) (f (ch2 p) (ch2 q)).

Definition px_all {X} (f : X -> bool) (p : px X) : bool :=
  f (ch0 p) && f (ch1 p) && f (ch2 p).

(** An H x W x 3 array: a list of rows, each a list of pixels. *)
Abbreviation hwc X := (list (list (px X))) (only parsing).

Definition hwc_map {X Y} (f : X -> Y) (a : hwc X) : hwc Y :=
  map (map (px_map f)) a.

Definition hwc_map2 {X Y V} (f : X -> Y -> V) (a : hwc X) (b : hwc Y) : hwc V :=
  zip_with (zip_with (px_map2 f)) a b.

Definition hwc_all {X} (f : X -> bool) (a : hwc X) : bool :=
  forallb (forallb (px_all f)) a.

(** The pixel at row [i], column [j]. *)
Definition pixel_at {X} (a : hwc X) (i j : nat) : option (px X) :=
  match a !! i with
  | Some row => row !! j
  | None => None
  end.

Module Binarizer.

(** [mask > 0]: an element-wise comparison giving a boolean array of the
    same shape. *)
Definition gt0 (mask : hwc Z) : hwc bool := hwc_map (fun v => 0 <? v) mask.

(** [np.logical_not(im)]. *)
Definition logical_not (im : hwc bool) : hwc bool := hwc_map negb im.

(** [mask[idx] = v] with a boolean index array of the mask's shape: the
    elements selected by [idx] are overwritten, the others kept. *)
Definition setitem_bool (mask : hwc Z) (idx : hwc bool) (v : Z) : hwc Z :=
  hwc_map2 (fun (sel : bool) old => if sel then v else old) idx mask.

(** Lines 97-100 of [__getitem__]:
<<
    im = mask > 0
    mask[im] = 255
    mask[np.logical_not(im)] = 0
>> *)
Definition binarize (mask : hwc Z) : hwc Z :=
  let im := gt0 mask in
  let mask := setitem_bool mask im 255 in
  let mask := setitem_bool mask (logical_not im) 0 in
  mask.

(** What one sample becomes. *)
Definition threshold (v : Z) : Z := if 0 <? v then 255 else 0.

Definition is_0_or_255 (v : Z) : bool := (v =? 0) || (v =? 255).

(** A mask all of whose samples are 0 or 255. *)
Definition is_binary (mask : hwc Z) : bool := hwc_all is_0_or_255 mask.

Definition px_zero (p : px Z) : bool := px_all (fun v => v =? 0) p.

Definition black : px Z := Px 0 0 0.
Definition white : px Z := Px 255 255 255.

(** The pixel-wise reading of the postcondition: an all-zero pixel becomes
    black and every other pixel becomes white in all three channels. *)
Definition pixelwise_post (mask : hwc Z) : Prop :=
  is_binary (binarize mask) = true /\
  forall i j p, pixel_at mask i j = Some p ->
    pixel_at (binarize mask) i j = Some (if px_zero p then black else white).

End Binarizer.

(** ** The pseudo-random source *)

(** Python's [random.random()] returns the successive values of a global
    generator, each in the half-open interval [0, 1).  The generator is an
    infinite sequence of draws together with a cursor. *)
Record rng : Type := Rng { draws : nat -> Q; cursor : nat }.

Definition rand (X : Type) : Type := rng -> X * rng.

Definition rret {X} (x : X) : rand X := fun g => (x, g).

Definition rand_bind {X Y} (m : rand X) (k : X -> rand Y) : rand Y :=
  fun g => let (x, g') := m g in k x g'.

Declare Scope rand_scope.
Delimit Scope rand_scope with rand.
Notation "'draw' x <- m ; k" := (rand_bind m (fun x => k))
  (at level 10, x name, m at level 100, k at level 200) : rand_scope.

(** [random.random()]. *)
Definition random_random : rand Q :=
  fun g => (draws g (cursor g), Rng (draws g) (S (cursor g))).

(** [random.uniform(a, b)] is [a + (b - a) * random()]. *)
Definition random_uniform (a b : Q) : rand Q :=
  (draw u <- random_random; rret (a + (b - a) * u)%Q)%rand.

(** Every draw lies in [0, 1). *)
Definition unit_draws (g : rng) : Prop :=
  forall n, (0 <= draws g n)%Q /\ (draws g n < 1)%Q.

(** [x < y] on rationals, as a boolean. *)
Definition Qltb (x y : Q) : bool :=
  (Qnum x * Zpos (Qden y) <? Qnum y * Zpos (Qden x))%Z.
Arguments Qltb : simpl never.

(** ** The augmentation library *)

Module Augment.

Inductive interpolation : Type := INTER_NEAREST | INTER_LINEAR.
Inductive border : Type := BORDER_CONSTANT | BORDER_REFLECT_101.

(** The image kernels of the augmentation library and of OpenCV, over an
    abstract array type: what they compute on the samples is floating-point
    work of the collaborators; the pipeline only composes them. *)
Class Kernels (A : Type) : Type := {
  (* [img.shape[:2]]: rows, columns *)
  shape : A -> nat * nat;
  (* [cv2.resize(img, (width, height), interpolation)]; raises on an empty
     source or an empty target size *)
  cv_resize : nat -> nat -> interpolation -> A -> result A;
  (* [cv2.copyMakeBorder(img, top, bottom, left, right, border_mode, value)] *)
  cv_copyMakeBorder : nat -> nat -> nat -> nat -> border -> Q -> A -> A;
  (* [cv2.flip(img, 1)] *)
  hflip : A -> A;
  (* [alpha * img + beta * max] *)
  brightness_contrast_adjust : Q -> Q -> A -> A;
  (* [cv2.warpAffine] about the centre, output size unchanged *)
  rotate : Q -> interpolation -> A -> A;
  (* [(img - mean * max_pixel_value) / (std * max_pixel_value)] *)
  normalize : px Q -> px Q -> Q -> A -> A
}.

(** The shapes the kernels produce. *)
Class KernelShapes (A : Type) `{Kernels A} : Prop := {
  cv_resize_shape : forall h w i a,
    (0 < h)%nat -> (0 < w)%nat ->
    (0 < fst (shape a))%nat -> (0 < snd (shape a))%nat ->
    exists b, cv_resize h w i a = Ok b /\ shape b = (h, w);
  cv_copyMakeBorder_shape : forall t b l r m v a,
    shape (cv_copyMakeBorder t b l r m v a)
    = (fst (shape a) + t + b, snd (shape a) + l + r)%nat;
  hflip_shape : forall a, shape (hflip a) = shape a;
  brightness_contrast_adjust_shape : forall al be a,
    shape (brightness_contrast_adjust al be a) = shape a;
  rotate_shape : forall ang i a, shape (rotate ang i a) = shape a;
  normalize_shape : forall mean std mx a, shape (normalize mean std mx a) = shape a
}.

(** The transforms used by [datasets.py], with their constructor arguments. *)
Inductive op : Type :=
  | Resize (height width : nat) (interp : interpolation)
  | PadIfNeeded (min_height min_width : nat) (border_mode : border)
                (value mask_value : Q)
  | HorizontalFlip
  | RandomBrightnessContrast (brightness_limit contrast_limit : Q)
  | Rotate (limit : Q) (interp : interpolation)
  | Normalize (mean std : px Q) (max_pixel_value : Q).

(** A transform instance: its operation, and the two attributes every
    transform of the library carries. *)
Record transform : Type := Transform {
  t_op : op;
  always_apply : bool;
  p : Q
}.

(** The constructors, with the library's defaults for the arguments
    [datasets.py] leaves out:
    - [Resize(height, width, interpolation=INTER_LINEAR, always_apply=False, p=1)]
    - [PadIfNeeded(min_height, min_width, position='center',
                   border_mode=BORDER_REFLECT_101, value, mask_value,
                   always_apply=False, p=1.0)]
    - [HorizontalFlip(always_apply=False, p=0.5)]
    - [RandomBrightnessContrast(brightness_limit=0.2, contrast_limit=0.2,
                                always_apply=False, p=0.5)]
    - [Rotate(limit, interpolation=INTER_LINEAR, always_apply=False, p=0.5)]
    - [Normalize(mean, std, max_pixel_value, always_apply=False, p=1.0)] *)
Definition A_Resize (height width : nat) (always_apply : bool) : transform :=
  Transform (Resize height width INTER_LINEAR) always_apply 1.

Definition A_PadIfNeeded (min_height min_width : nat) (value mask_value : Q)
  : transform :=
  Transform (PadIfNeeded min_height min_width BORDER_REFLECT_101 value mask_value)
            false 1.

Definition A_HorizontalFlip (p : Q) : transform :=
  Transform HorizontalFlip false p.

Definition A_RandomBrightnessContrast (p : Q) : transform :=
  Transform (RandomBrightnessContrast (2 # 10) (2 # 10)) false p.

Definition A_Rotate (limit : Q) : transform :=
  Transform (Rotate limit INTER_LINEAR) false (1 # 2).

Definition A_Normalize (mean std : px Q) (max_pixel_value : Q) : transform :=
  Transform (Normalize mean std max_pixel_value) false 1.

(** [A.Compose(transforms, p=1.0, is_check_shapes=True)]. *)
Record compose : Type := Compose {
  transforms : list transform;
  compose_p : Q;
  is_check_shapes : bool
}.

Definition A_Compose (ts : list transform) (is_check_shapes : bool) : compose :=
  Compose ts 1 is_check_shapes.

(** The data passed through a pipeline: [tfms(image=..., mask=...)]. *)
Record sample (A : Type) : Type := Sample { image : A; mask : A }.
Arguments Sample {A} _ _.
Arguments image {A} _.
Arguments mask {A} _.

(** The parameters a transform computes for one application. *)
Inductive params : Type :=
  | NoParams
  | PadParams (pad_top pad_bottom pad_left pad_right : nat)
  | BrightnessContrast (alpha beta : Q)
  | Angle (angle : Q).

(** What a call of a pipeline applied, in order. *)
Definition trace : Type := list (op * params).

Definition is_rotate (e : op * params) : bool :=
  match fst e with Rotate _ _ => true | _ => false end.

(** [PadIfNeeded.update_params]: the padding is computed from the image's
    rows and columns; with [position='center'] it is split evenly, the odd
    pixel going to the bottom and to the right. *)
Definition pad_amounts (min_height min_width rows cols : nat) : params :=
  let h_pad_top := if (rows <? min_height)%nat then ((min_height - rows) / 2)%nat else 0%nat in
  let h_pad_bottom := if (rows <? min_height)%nat then (min_height - rows - h_pad_top)%nat else 0%nat in
  let w_pad_left := if (cols <? min_width)%nat then ((min_width - cols) / 2)%nat else 0%nat in
  let w_pad_right := if (cols <? min_width)%nat then (min_width - cols - w_pad_left)%nat else 0%nat in
  PadParams h_pad_top h_pad_bottom w_pad_left w_pad_right.

(** Whether a transform is applied, given the value drawn for it. *)
Definition fires (t : transform) (u : Q) : bool := Qltb u (p t) || always_apply t.

(** The generator after one draw. *)
Definition advance (g : rng) : rng := Rng (draws g) (S (cursor g)).

(** Transforms whose parameters are computed without a draw, and transforms
    that are applied at every call and draw nothing. *)
Definition draw_free (o : op) : bool :=
  match o with
  | Resize _ _ _ | PadIfNeeded _ _ _ _ _ | HorizontalFlip | Normalize _ _ _ => true
  | RandomBrightnessContrast _ _ | Rotate _ _ => false
  end.

Definition certain (t : transform) : bool :=
  (always_apply t || Qle_bool 1 (p t)) && draw_free (t_op t).

(** Transforms that return arrays of the shape they were given. *)
Definition keeps_shape (t : transform) : bool :=
  match t_op t with
  | HorizontalFlip | RandomBrightnessContrast _ _ | Rotate _ _ | Normalize _ _ _ => true
  | Resize _ _ _ | PadIfNeeded _ _ _ _ _ => false
  end.

(** The property of a rotation entry of a trace: it is the configured
    rotation, with an angle computed from the draw [v]. *)
Definition rotation_entry (v : Q) (e : op * params) : Prop :=
  fst e = Rotate 25 INTER_LINEAR /\
  exists a, snd e = Angle a /\
    (a == - (25) + (25 - - (25)) * v)%Q /\ (- (25) <= a)%Q /\ (a <= 25)%Q.

Section Run.
Context {A : Type} `{Kernels A}.

(** [get_params] and [update_params] of each transform. *)
Definition get_params (o : op) (d : sample A) : rand params :=
  match o with
  | Resize _ _ _ | HorizontalFlip | Normalize _ _ _ => rret NoParams
  | PadIfNeeded min_height min_width _ _ _ =>
      rret (pad_amounts min_height min_width
              (fst (shape (image d))) (snd (shape (image d))))
  | RandomBrightnessContrast brightness_limit contrast_limit =>
      (draw c <- random_uniform (- contrast_limit) contrast_limit;
       draw b <- random_uniform (- brightness_limit) brightness_limit;
       rret (BrightnessContrast (1 + c) (0 + b)))%rand
  | Rotate limit _ =>
      (draw a <- random_uniform (- limit) limit; rret (Angle a))%rand
  end.

(** [apply_with_params]: a dual transform acts on the image and on the mask
    (the mask with nearest-neighbour interpolation and its own fill value),
    an image-only transform leaves the mask alone. *)
Definition apply_with_params (o : op) (prm : params) (d : sample A)
  : result (sample A) :=
  match o, prm with
  | Resize height width interp, _ =>
      rbind (cv_resize height width interp (image d)) (fun img =>
      rbind (cv_resize height width INTER_NEAREST (mask d)) (fun msk =>
      Ok (Sample img msk)))
  | PadIfNeeded _ _ border_mode value mask_value, PadParams t b l r =>
      Ok (Sample (cv_copyMakeBorder t b l r border_mode value (image d))
                 (cv_copyMakeBorder t b l r border_mode mask_value (mask d)))
  | HorizontalFlip, _ =>
      Ok (Sample (hflip (image d)) (hflip (mask d)))
  | RandomBrightnessContrast _ _, BrightnessContrast alpha beta =>
      Ok (Sample (brightness_contrast_adjust alpha beta (image d)) (mask d))
  | Rotate _ interp, Angle angle =>
      Ok (Sample (rotate angle interp (image d))
                 (rotate angle INTER_NEAREST (mask d)))
  | Normalize mean std max_pixel_value, _ =>
      Ok (Sample (normalize mean std max_pixel_value (image d)) (mask d))
  | _, _ => Raise KeyError
  end.

(** [BasicTransform.__call__]:
<<
    if (random.random() < self.p) or self.always_apply or force_apply:
        params = self.get_params()
        ...
        return self.apply_with_params(params, kwargs)
    return kwargs
>> *)
Definition call_transform (t : transform) (d : sample A)
  : rand (result (sample A) * trace) :=
  (draw u <- random_random;
   if Qltb u (p t) || always_apply t then
     draw prm <- get_params (t_op t) d;
     rret (apply_with_params (t_op t) prm d, [(t_op t, prm)])
   else rret (Ok d, []))%rand.

(** The loop over the transforms, each called on the data the previous one
    returned; an exception ends it. *)
Fixpoint run_transforms (ts : list transform) (d : sample A)
  : rand (result (sample A) * trace) :=
  match ts with
  | [] => rret (Ok d, [])
  | t :: ts' =>
      (draw r <- call_transform t d;
       match fst r with
       | Ok d' =>
           draw r' <- run_transforms ts' d';
           rret (fst r', snd r ++ snd r')
       | Raise e => rret (Raise e, snd r)
       end)%rand
  end.

Definition same_shape (s1 s2 : nat * nat) : bool :=
  (fst s1 =? fst s2)%nat && (snd s1 =? snd s2)%nat.

(** [Compose.__call__]: the shape check of the arguments (when enabled),
    the draw against the pipeline's own [p], then the transforms in order;
    when the draw fails only the transforms marked [always_apply] run. *)
Definition call_compose (c : compose) (d : sample A)
  : rand (result (sample A) * trace) :=
  if is_check_shapes c && negb (same_shape (shape (image d)) (shape (mask d)))
  then rret (Raise ValueError, [])
  else
    (draw u <- random_random;
     let need_to_run := Qltb u (compose_p c) in
     run_transforms
       (if need_to_run then transforms c else filter always_apply (transforms c))
       d)%rand.

(** The run of transforms that are [certain], written without a generator. *)
Fixpoint pure_run (ts : list transform) (d : sample A)
  : result (sample A) * trace :=
  match ts with
  | [] => (Ok d, [])
  | t :: ts' =>
      let prm := fst (get_params (t_op t) d (Rng (fun _ => 0%Q) 0)) in
      match apply_with_params (t_op t) prm d with
      | Ok d' => let r := pure_run ts' d' in (fst r, (t_op t, prm) :: snd r)
      | Raise e => (Raise e, [(t_op t, prm)])
      end
  end.

(** Image and mask both have the shape [s]. *)
Definition has_shape (s : nat * nat) (d : sample A) : Prop :=
  shape (image d) = s /\ shape (mask d) = s.

End Run.

End Augment.

(** ** datasets.py: the two pipelines *)

Definition MEAN : px Q := Px (485 # 1000) (456 # 1000) (406 # 1000).
Definition STD : px Q := Px (229 # 1000) (224 # 1000) (225 # 1000).

(** [img_size] is [(width, height)]: [img_size[0]] is the width. *)
Definition train_transforms (img_size : nat * nat) : Augment.compose :=
  Augment.A_Compose [
    Augment.A_Resize (snd img_size) (fst img_size) true;
    Augment.A_PadIfNeeded (snd img_size + 4) (fst img_size + 4) 0 0;
    Augment.A_HorizontalFlip (5 # 10);
    Augment.A_RandomBrightnessContrast (2 # 10);
    Augment.A_Rotate 25;
    Augment.A_Normalize MEAN STD 255
  ] false.

Definition valid_transforms (img_size : nat * nat) : Augment.compose :=
  Augment.A_Compose [
    Augment.A_Resize (snd img_size) (fst img_size) true;
    Augment.A_PadIfNeeded (snd img_size + 4) (fst img_size + 4) 0 0;
    Augment.A_Normalize MEAN STD 255
  ] false.

(** The reading of C2 as stated: every successful call of the train pipeline
    applies the rotation. *)
Definition rotation_always_applied : Prop :=
  forall (B : Type) (K : Augment.Kernels B) (img_size : nat * nat)
         (d : Augment.sample B) (g : rng),
    unit_draws g ->
    let r := fst (@Augment.call_compose B K (train_transforms img_size) d g) in
    is_ok (fst r) = true -> existsb Augment.is_rotate (snd r) = true.

(** Arrays reduced to their shape: the smallest instance of the kernels,
    used to run the pipelines on concrete inputs. *)
Module ShapeOnly.

Definition resize (h w : nat) (a : nat * nat) : result (nat * nat) :=
  if (h =? 0)%nat || (w =? 0)%nat || (fst a =? 0)%nat || (snd a =? 0)%nat
  then Raise CvError
  else Ok (h, w).

Definition kernels : Augment.Kernels (nat * nat) := {|
  Augment.shape := fun a => a;
  Augment.cv_resize := fun h w _ a => resize h w a;
  Augment.cv_copyMakeBorder := fun t b l r _ _ a =>
    (fst a + t + b, snd a + l + r)%nat;
  Augment.hflip := fun a => a;
  Augment.brightness_contrast_adjust := fun _ _ a => a;
  Augment.rotate := fun _ _ a => a;
  Augment.normalize := fun _ _ _ a => a
|}.

(** A generator that returns the same value at every draw. *)
Definition constant (u : Q) : rng := Rng (fun _ => u) 0.

End ShapeOnly.

(** ** datasets.py: the file discoverer *)

Module Discover.

(** Python orders strings by code point, which on UTF-8 encoded paths is the
    byte-wise lexicographic order of [String.leb]. *)
Definition path_le (a b : string) : Prop := String.leb a b = true.

#[export] Instance path_le_dec : RelDecision path_le :=
  fun a b => decide (String.leb a b = true).

(** [list.sort()]: on a total order every sorting algorithm returns the same
    list; a merge sort stands for Python's. *)
Definition list_sort (l : list string) : list string := merge_sort path_le l.

Section GetImages.

(** [glob.glob(pattern)]: the paths the file system holds for a pattern, in
    the arbitrary order the directory listing gives them. *)
Variable glob_glob : string -> list string.

Definition get_images (root_path : string)
  : list string * list string * list string * list string :=
  let train_images := glob_glob (root_path ++ "/train_images/*")%string in
  let train_images := list_sort train_images in
  let train_masks := glob_glob (root_path ++ "/train_masks/*")%string in
  let train_masks := list_sort train_masks in
  let valid_images := glob_glob (root_path ++ "/valid_images/*")%string in
  let valid_images := list_sort valid_images in
  let valid_masks := glob_glob (root_path ++ "/valid_masks/*")%string in
  let valid_masks := list_sort valid_masks in
  (train_images, train_masks, valid_images, valid_masks).

End GetImages.

(** A list is the sorted listing of a pattern when it is in ascending order
    and holds exactly the paths the pattern matches. *)
Definition sorted_listing (glob_glob : string -> list string) (pattern : string)
    (l : list string) : Prop :=
  StronglySorted path_le l /\
  Permutation l (glob_glob pattern) /\
  length l = length (glob_glob pattern).

(** A small file system. *)
Definition toy_glob (pattern : string) : list string :=
  if String.eqb pattern "data/train_images/*"
  then ["data/train_images/b.png"; "data/train_images/a.png";
        "data/train_images/10.png"; "data/train_images/9.png"]%string
  else if String.eqb pattern "data/train_masks/*"
  then ["data/train_masks/b.png"; "data/train_masks/a.png"]%string
  else [].

End Discover.

(** ** Tensors and the batch collator *)

(** A dense tensor: its shape and its elements in row-major order. *)
Record tensor (E : Type) : Type := Tensor {
  t_shape : list nat;
  t_data : list E
}.
Arguments Tensor {E} _ _.
Arguments t_shape {E} _.
Arguments t_data {E} _.

Definition numel (shape : list nat) : nat := fold_right Nat.mul 1%nat shape.

(** The data holds one element per position of the shape. *)
Definition well_formed {E} (t : tensor E) : Prop :=
  length (t_data t) = numel (t_shape t).

Definition shape_eqb : list nat -> list nat -> bool :=
  fix go s1 s2 :=
    match s1, s2 with
    | [], [] => true
    | x :: s1', y :: s2' => (x =? y)%nat && go s1' s2'
    | _, _ => false
    end.

(** [t[k]]: the [k]-th slice along the leading dimension. *)
Definition select {E} (t : tensor E) (k : nat) : tensor E :=
  let n := numel (tail (t_shape t)) in
  Tensor (tail (t_shape t)) (take n (drop (k * n) (t_data t))).

Module Collate.

(** [torch.stack(tensors, dim=0)]: raises on an empty list ("stack expects a
    non-empty TensorList") and on tensors of different sizes ("stack expects
    each tensor to be equal size"); otherwise the tensors are laid out one
    after the other under a new leading dimension. *)
Definition torch_stack {E} (tensors : list (tensor E)) : result (tensor E) :=
  match tensors with
  | [] => Raise RuntimeError
  | t :: rest =>
      if forallb (fun t' => shape_eqb (t_shape t') (t_shape t)) rest
      then Ok (Tensor (length tensors :: t_shape t) (concat (map t_data tensors)))
      else Raise RuntimeError
  end.

(** A Python [dict] with integer keys: the items in insertion order. *)
Definition dict (V : Type) : Type := list (Z * V).

(** [d[k] = v]: replaces the value of an existing key in place, or appends a
    new item. *)
Fixpoint dict_setitem {V} (d : dict V) (k : Z) (v : V) : dict V :=
  match d with
  | [] => [(k, v)]
  | (k', v') :: d' =>
      if (k' =? k)%Z then (k, v) :: d' else (k', v') :: dict_setitem d' k v
  end.

Definition dict_keys {V} (d : dict V) : list Z := map fst d.

Section CollateFn.
Context {E L : Type}.

(** The batch holds image tensors under key 0 and label tensors under key 1. *)
Definition collate_fn (inputs : list (tensor E * tensor L))
  : result (dict (tensor E + tensor L)) :=
  let batch := [] in
  rbind (torch_stack (map fst inputs)) (fun images =>
  let batch := dict_setitem batch 0 (inl images) in
  rbind (torch_stack (map snd inputs)) (fun labels =>
  let batch := dict_setitem batch 1 (inr labels) in
  Ok batch)).

(** Two samples of the sequence whose image shapes or label shapes differ. *)
Definition ragged (inputs : list (tensor E * tensor L)) : Prop :=
  exists i j s s', inputs !! i = Some s /\ inputs !! j = Some s' /\
    (t_shape (fst s) <> t_shape (fst s') \/ t_shape (snd s) <> t_shape (snd s')).

Definition sample_shaped (C H W : nat) (s : tensor E * tensor L) : Prop :=
  (t_shape (fst s) = [C; H; W] /\ well_formed (fst s)) /\
  (t_shape (snd s) = [H; W] /\ well_formed (snd s)).

End CollateFn.

End Collate.

(** ** datasets.py: the segmentation dataset *)

(** [l[i]] on a Python list: a negative index counts from the end, an index
    outside [-len, len) raises [IndexError]. *)
Definition py_getitem {X} (l : list X) (i : Z) : result X :=
  let n := Z.of_nat (length l) in
  let j := if i <? 0 then n + i else i in
  if (0 <=? j) && (j <? n) then
    match l !! Z.to_nat j with
    | Some x => Ok x
    | None => Raise IndexError
    end
  else Raise IndexError.

(** [cv2.cvtColor(img, cv2.COLOR_BGR2RGB)]: swaps the first and the third
    channel; [cv2.imread] returns [None] for a file it cannot read, on which
    [cvtColor] raises. *)
Definition cvtColor_BGR2RGB (img : option (hwc Z)) : result (hwc Z) :=
  match img with
  | Some a => Ok (map (map (fun q => Px (ch2 q) (ch1 q) (ch0 q))) a)
  | None => Raise CvError
  end.

(** Modelled from the spec: [set_class_values] of [utils], which is not
    among the sources.  It returns "the list of indices into [all_classes]
    for [classes_to_train]", in the order of [classes_to_train]; a name that
    has no index in [all_classes] leaves no such list, which is an error. *)
Fixpoint index_of (names : list string) (name : string) : option nat :=
  match names with
  | [] => None
  | n :: names' =>
      if String.eqb n name then Some 0%nat
      else option_map S (index_of names' name)
  end.

Fixpoint set_class_values_spec (all_classes classes_to_train : list string)
  : result (list nat) :=
  match classes_to_train with
  | [] => Ok []
  | c :: cs =>
      match index_of all_classes c with
      | Some i => rbind (set_class_values_spec all_classes cs) (fun rest => Ok (i :: rest))
      | None => Raise ValueError
      end
  end.

Module Dataset.

(** The attributes of a [SegmentationDataset] object. *)
Record dataset : Type := Build {
  image_paths : list string;
  mask_paths : list string;
  tfms : Augment.compose;
  label_colors_list : list (px Z);
  all_classes : list string;
  classes_to_train : list string;
  class_values : list nat
}.

(** What a method runs against: the object and the random generator. *)
Record heap : Type := Heap { self : dataset; gen : rng }.

(** A method body: it may raise, and it leaves a heap behind either way. *)
Definition M (X : Type) : Type := heap -> result X * heap.

Definition mret {X} (x : X) : M X := fun h => (Ok x, h).

Definition mbind {X Y} (m : M X) (k : X -> M Y) : M Y :=
  fun h =>
    match m h with
    | (Ok x, h') => k x h'
    | (Raise e, h') => (Raise e, h')
    end.

(** Reading an attribute of [self]. *)
Definition attr {X} (f : dataset -> X) : M X := fun h => (Ok (f (self h)), h).

(** An expression that may raise. *)
Definition eval {X} (r : result X) : M X := fun h => (r, h).

(** A computation that draws from the generator. *)
Definition with_rng {X} (m : rand (result X * Augment.trace)) : M X :=
  fun h => let (r, g) := m (gen h) in (fst r, Heap (self h) g).

(** A method body keeps the object when, from every heap, the heap it
    leaves behind holds the same object, whether it returned or raised. *)
Definition keeps_self {X} (m : M X) : Prop :=
  forall h, self (snd (m h)) = self h.

Declare Scope method_scope.
Delimit Scope method_scope with method.
Notation "'let*' x := m 'in' k" := (mbind m (fun x => k))
  (at level 10, x name, m at level 100, k at level 200) : method_scope.

Section Methods.
Context {A F : Type} `{Augment.Kernels A}.

(** The collaborators. *)
Variable set_class_values : list string -> list string -> result (list nat).
Variable get_label_mask : A -> list nat -> list (px Z) -> result (list (list Z)).
(** [cv2.imread(path, cv2.IMREAD_COLOR)] on the file system at hand. *)
Variable cv_imread : string -> option (hwc Z).
(** [astype('float32')]: the array handed to the image kernels. *)
Variable astype_float32 : hwc Z -> A.
(** [torch.tensor(image.transpose(2, 0, 1))]. *)
Variable chw_tensor : A -> tensor F.

(** [SegmentationDataset.__init__]. *)
Definition init (image_paths mask_paths : list string) (tfms : Augment.compose)
    (label_colors_list : list (px Z)) (classes_to_train all_classes : list string)
  : result dataset :=
  rbind (set_class_values all_classes classes_to_train) (fun class_values =>
  Ok (Build image_paths mask_paths tfms label_colors_list all_classes
            classes_to_train class_values)).

(** [SegmentationDataset.__len__]. *)
Definition len (ds : dataset) : nat := length (image_paths ds).

(** [astype('uint8')] on the label mask. *)
Definition astype_uint8 (m : list (list Z)) : list (list Z) :=
  map (map (fun v => v mod 256)) m.

(** [torch.LongTensor(mask)] of a two-dimensional array. *)
Definition LongTensor (m : list (list Z)) : tensor Z :=
  Tensor [length m; length (hd [] m)] (concat m).

(** [SegmentationDataset.__getitem__]. *)
Definition getitem (index : Z) : M (tensor F * tensor Z) :=
  (let* paths := attr image_paths in
   let* path := eval (py_getitem paths index) in
   let* image := eval (cvtColor_BGR2RGB (cv_imread path)) in
   let* paths := attr mask_paths in
   let* path := eval (py_getitem paths index) in
   let* mask := eval (cvtColor_BGR2RGB (cv_imread path)) in
   let mask := Binarizer.binarize mask in
   let* tfms := attr tfms in
   let* transformed :=
     with_rng (Augment.call_compose tfms
                 (Augment.Sample (astype_float32 image) (astype_float32 mask))) in
   let image := Augment.image transformed in
   let mask := Augment.mask transformed in
   let* class_values := attr class_values in
   let* label_colors_list := attr label_colors_list in
   let* mask := eval (get_label_mask mask class_values label_colors_list) in
   let mask := astype_uint8 mask in
   let image := chw_tensor image in
   mret (image, LongTensor mask))%method.

(** A sequence of accesses, whatever each of them returns or raises. *)
Fixpoint accesses (indices : list Z) (h : heap) : heap :=
  match indices with
  | [] => h
  | i :: rest => accesses rest (snd (getitem i h))
  end.

End Methods.

End Dataset.

(** A concrete dataset, to run the methods on. *)
Module Toy.

(** One image file, no mask file; arrays reduced to their shape. *)
Definition toy_imread (path : string) : option (hwc Z) :=
  if String.eqb path "a.png" then Some [[Px 3 0 7; Px 0 0 0]] else None.

Definition toy_float32 (a : hwc Z) : nat * nat := (length a, length (hd [] a)).

Definition toy_label_mask (a : nat * nat) (class_values : list nat)
    (label_colors_list : list (px Z)) : result (list (list Z)) :=
  Ok (repeat (repeat 0 (snd a)) (fst a)).

Definition toy_chw (a : nat * nat) : tensor Z :=
  Tensor [3; fst a; snd a]%nat (repeat 0 (3 * fst a * snd a)).

Definition toy_getitem : Z -> Dataset.M (tensor Z * tensor Z) :=
  @Dataset.getitem _ _ ShapeOnly.kernels toy_label_mask toy_imread toy_float32 toy_chw.

Definition toy_accesses : list Z -> Dataset.heap -> Dataset.heap :=
  @Dataset.accesses _ _ ShapeOnly.kernels toy_label_mask toy_imread toy_float32 toy_chw.

Definition toy_dataset : Dataset.dataset :=
  Dataset.Build ["a.png"%string] [] (valid_transforms (32, 16)%nat)
        [Px 0 0 0; Px 255 255 255; Px 255 0 0]
        ["bg"; "road"; "car"]%string ["road"; "car"]%string [1; 2]%nat.

End Toy.

(** ** Paired path lists *)

Module Pairing.

(** Two path lists that hold, position by position, the same file name
    under two directories. *)
Definition aligned (image_dir mask_dir : string) (images masks : list string)
  : Prop :=
  length images = length masks /\
  forall k image_path mask_path,
    images !! k = Some image_path -> masks !! k = Some mask_path ->
    exists name,
      image_path = (image_dir ++ name)%string /\
      mask_path = (mask_dir ++ name)%string.

End Pairing.

(** ** datasets.py: the dataset factory and the loaders *)

Module Factory.

Section GetDataset.
Variable set_class_values : list string -> list string -> result (list nat).

(** [get_dataset]: the train dataset is built first, then the validation
    dataset; an exception of the first construction ends the call. *)
Definition get_dataset
    (train_image_paths train_mask_paths valid_image_paths valid_mask_paths
       : list string)
    (all_classes classes_to_train : list string)
    (label_colors_list : list (px Z)) (img_size : nat * nat)
  : result (Dataset.dataset * Dataset.dataset) :=
  let train_tfms := train_transforms img_size in
  let valid_tfms := valid_transforms img_size in
  rbind (Dataset.init set_class_values train_image_paths train_mask_paths
           train_tfms label_colors_list classes_to_train all_classes)
        (fun train_dataset =>
  rbind (Dataset.init set_class_values valid_image_paths valid_mask_paths
           valid_tfms label_colors_list classes_to_train all_classes)
        (fun valid_dataset =>
  Ok (train_dataset, valid_dataset))).

End GetDataset.

(** The batching of a [DataLoader]: the loop of its batch sampler over the
    indices its sampler yields,
<<
    batch = []
    for idx in sampler:
        batch.append(idx)
        if len(batch) == batch_size:
            yield batch
            batch = []
    if len(batch) > 0 and not drop_last:
        yield batch
>> *)
Fixpoint batch_loop (batch_size : nat) (drop_last : bool)
    (sampler : list nat) (batch : list nat) : list (list nat) :=
  match sampler with
  | [] =>
      if (0 <? length batch)%nat && negb drop_last then [batch] else []
  | idx :: rest =>
      let batch := batch ++ [idx] in
      if (length batch =? batch_size)%nat
      then batch :: batch_loop batch_size drop_last rest []
      else batch_loop batch_size drop_last rest batch
  end.

Definition batch_sampler (batch_size : nat) (drop_last : bool)
    (sampler : list nat) : list (list nat) :=
  batch_loop batch_size drop_last sampler [].

(** The arguments [get_data_loaders] gives to a [DataLoader]. *)
Record loader : Type := Loader {
  dataset : Dataset.dataset;
  batch_size : Z;
  drop_last : bool;
  num_workers : nat;
  shuffle : bool
}.

(** [DataLoader(...)]: the constructor raises [ValueError] for a shuffling
    loader over an empty dataset (its random sampler wants a positive number
    of samples) and for a batch size that is not positive (its batch
    sampler). *)
Definition DataLoader (dataset : Dataset.dataset) (batch_size : Z)
    (drop_last : bool) (num_workers : nat) (shuffle : bool) : result loader :=
  if shuffle && (Dataset.len dataset =? 0)%nat then Raise ValueError
  else if batch_size <=? 0 then Raise ValueError
  else Ok (Loader dataset batch_size drop_last num_workers shuffle).

(** [get_data_loaders]. *)
Definition get_data_loaders (train_dataset valid_dataset : Dataset.dataset)
    (batch_size : Z) : result (loader * loader) :=
  rbind (DataLoader train_dataset batch_size false 8 true)
        (fun train_data_loader =>
  rbind (DataLoader valid_dataset batch_size false 8 false)
        (fun valid_data_loader =>
  Ok (train_data_loader, valid_data_loader))).

(** The index batches of one pass over a loader, given the order in which
    its sampler yields the indices of the dataset: [0, 1, ..., len - 1] when
    [shuffle] is off, a rearrangement of them when it is on. *)
Definition sequential (l : loader) : list nat :=
  seq 0 (Dataset.len (dataset l)).

Definition index_batches (l : loader) (order : list nat) : list (list nat) :=
  batch_sampler (Z.to_nat (batch_size l)) (drop_last l)
    (if shuffle l then order else sequential l).

End Factory.

(** A file system on which every path but ["missing.png"] reads as a 1 x 2
    image, for runs that succeed. *)
Module Readable.

Definition imread (path : string) : option (hwc Z) :=
  if String.eqb path "missing.png" then None
  else Some [[Px 3 0 7; Px 0 0 0]].

Definition label_mask (a : nat * nat) (class_values : list nat)
    (label_colors_list : list (px Z)) : result (list (list Z)) :=
  Ok (repeat (repeat 300 (snd a)) (fst a)).

(** Directories whose images and masks carry the same file names, listed in
    different orders. *)
Definition glob (pattern : string) : list string :=
  if String.eqb pattern "d/train_images/*"
  then ["d/train_images/b.png"; "d/train_images/a.png"; "d/train_images/c.png"]%string
  else if String.eqb pattern "d/train_masks/*"
  then ["d/train_masks/c.png"; "d/train_masks/b.png"; "d/train_masks/a.png"]%string
  else if String.eqb pattern "d/valid_images/*"
  then ["d/valid_images/z.png"]%string
  else if String.eqb pattern "d/valid_masks/*"
  then ["d/valid_masks/z.png"]%string
  else [].

Definition getitem : Z -> Dataset.M (tensor Z * tensor Z) :=
  @Dataset.getitem _ _ ShapeOnly.kernels label_mask imread
    Toy.toy_float32 Toy.toy_chw.

Definition valid_set : Dataset.dataset :=
  Dataset.Build ["a.png"; "b.png"; "missing.png"]%string
        ["ma.png"; "mb.png"; "mc.png"]%string
        (valid_transforms (32, 16)%nat)
        [Px 0 0 0; Px 255 255 255; Px 255 0 0]
        ["bg"; "road"; "car"]%string ["road"; "car"]%string [1; 2]%nat.

End Readable.

(** ** Reading a trace *)

Module Trace.
Import Augment.

Definition is_resize (e : op * params) : bool :=
  match fst e with Resize _ _ _ => true | _ => false end.
Definition is_pad (e : op * params) : bool :=
  match fst e with PadIfNeeded _ _ _ _ _ => true | _ => false end.
Definition is_hflip (e : op * params) : bool :=
  match fst e with HorizontalFlip => true | _ => false end.
Definition is_brightness (e : op * params) : bool :=
  match fst e with RandomBrightnessContrast _ _ => true | _ => false end.
Definition is_normalize (e : op * params) : bool :=
  match fst e with Normalize _ _ _ => true | _ => false end.

(** The operations a trace lists, in order. *)
Definition ops (tr : trace) : list op := map fst tr.

End Trace.

(** ** Lists *)

Lemma lookup_map {X Y} (f : X -> Y) (l : list X) (i : nat) :
  map f l !! i = f <$> l !! i.
Proof.
  revert i; induction l as [|x l IH]; intros [|i]; simpl; auto.
Qed.

(** The [k]-th of equally long chunks laid end to end. *)
Lemma take_drop_concat {X} (n : nat) (ls : list (list X)) :
  Forall (fun l => length l = n) ls ->
  forall k l, ls !! k = Some l -> take n (drop (k * n) (concat ls)) = l.
Proof.
  induction 1 as [|l0 ls Hl0 Hls IH]; intros k l Hk; [destruct k; discriminate|].
  destruct k as [|k]; simpl in *.
  - injection Hk as <-. now apply take_app_length'.
  - rewrite drop_app_add' by (symmetry; exact Hl0).
    now apply IH.
Qed.

(** ** Properties of the mask binarizer *)

Module BinarizerFacts.
Import Binarizer.

Lemma zip_with_map_same {X Y V} (f : X -> Y) (g : Y -> X -> V) (l : list X) :
  zip_with g (map f l) l = map (fun x => g (f x) x) l.
Proof.
  induction l as [|x l IH]; simpl; [reflexivity|].
  now rewrite IH.
Qed.

Lemma setitem_gt0 (mask : hwc Z) (v : Z) :
  setitem_bool mask (gt0 mask) v = hwc_map (fun x => if 0 <? x then v else x) mask.
Proof.
  unfold setitem_bool, gt0, hwc_map2, hwc_map.
  induction mask as [|row mask IH]; simpl; [reflexivity|].
  rewrite IH; f_equal.
  clear IH. induction row as [|p row IH]; simpl; [reflexivity|].
  rewrite IH; f_equal.
Qed.

Lemma hwc_map_map {X Y V} (f : X -> Y) (g : Y -> V) (a : hwc X) :
  hwc_map g (hwc_map f a) = hwc_map (fun x => g (f x)) a.
Proof.
  unfold hwc_map. rewrite map_map. apply map_ext; intros row.
  rewrite map_map. apply map_ext; intros [x y z]; reflexivity.
Qed.

Lemma hwc_map_ext {X Y} (f g : X -> Y) (a : hwc X) :
  (forall x, f x = g x) -> hwc_map f a = hwc_map g a.
Proof.
  intros E. unfold hwc_map. apply map_ext; intros row.
  apply map_ext; intros [x y z]; unfold px_map; simpl.
  now rewrite !E.
Qed.

(** The three numpy statements amount to thresholding every sample. *)
Lemma binarize_threshold (mask : hwc Z) :
  binarize mask = hwc_map threshold mask.
Proof.
  unfold binarize; cbv zeta.
  rewrite setitem_gt0.
  unfold setitem_bool, logical_not, gt0, hwc_map2.
  rewrite hwc_map_map.
  unfold hwc_map at 1 2.
  induction mask as [|row mask IH]; simpl; [reflexivity|].
  rewrite IH; f_equal.
  clear IH. induction row as [|p row IH]; simpl; [reflexivity|].
  rewrite IH; f_equal.
  destruct p as [x y z]; unfold px_map2, px_map, threshold; simpl.
  destruct (0 <? x), (0 <? y), (0 <? z); reflexivity.
Qed.

Lemma pixel_at_map {X Y} (f : X -> Y) (a : hwc X) (i j : nat) :
  pixel_at (hwc_map f a) i j = px_map f <$> pixel_at a i j.
Proof.
  unfold pixel_at, hwc_map.
  rewrite lookup_map.
  destruct (a !! i) as [row|]; simpl; [|reflexivity].
  apply lookup_map.
Qed.

Lemma threshold_0_or_255 (v : Z) : is_0_or_255 (threshold v) = true.
Proof. unfold threshold; destruct (0 <? v); reflexivity. Qed.

Lemma hwc_all_map {X Y} (f : X -> Y) (q : Y -> bool) (a : hwc X) :
  (forall x, q (f x) = true) -> hwc_all q (hwc_map f a) = true.
Proof.
  intros H. unfold hwc_all, hwc_map.
  apply forallb_forall; intros row' [row [<- _]]%in_map_iff.
  apply forallb_forall; intros p' [p [<- _]]%in_map_iff.
  destruct p; unfold px_all, px_map; simpl. now rewrite !H.
Qed.

Lemma threshold_fix (v : Z) : is_0_or_255 v = true -> threshold v = v.
Proof.
  unfold is_0_or_255, threshold.
  intros [E%Z.eqb_eq | E%Z.eqb_eq]%orb_true_iff; subst; reflexivity.
Qed.

Lemma hwc_map_id_on (f : Z -> Z) (q : Z -> bool) (a : hwc Z) :
  (forall x, q x = true -> f x = x) -> hwc_all q a = true -> hwc_map f a = a.
Proof.
  intros Hf. unfold hwc_all, hwc_map.
  induction a as [|row a IH]; simpl; [reflexivity|].
  intros [Hrow Ha]%andb_true_iff. f_equal; [|now apply IH].
  clear IH Ha. induction row as [|p row IH]; simpl in *; [reflexivity|].
  apply andb_true_iff in Hrow as [Hp Hrow]. f_equal; [|now apply IH].
  destruct p as [x y z]; unfold px_all, px_map in *; simpl in *.
  apply andb_true_iff in Hp as [Hp Hz]. apply andb_true_iff in Hp as [Hx Hy].
  now rewrite !Hf.
Qed.

(** C1, as stated, fails: a pixel with a single positive channel is not
    turned white, only its positive channel is raised to 255. *)
Lemma binarize_not_pixelwise : ~ pixelwise_post [[Px 0 5 0]].
Proof.
  intros [_ H].
  specialize (H 0%nat 0%nat (Px 0 5 0) eq_refl).
  vm_compute in H. discriminate H.
Qed.

(** C1 (amended): the output has the mask's shape and holds only 0 and 255;
    each channel of each pixel is decided on its own: it becomes 255 when it
    was positive and 0 otherwise.  So an all-zero pixel becomes all-zero, and
    a pixel with a positive channel gets 255 in exactly its positive
    channels. *)
Theorem binarize_samplewise (mask : hwc Z) :
  is_binary (binarize mask) = true /\
  (forall i j, pixel_at (binarize mask) i j = px_map threshold <$> pixel_at mask i j) /\
  (forall i j p, pixel_at mask i j = Some p -> px_zero p = true ->
     pixel_at (binarize mask) i j = Some black) /\
  (forall i j p, pixel_at mask i j = Some p ->
     exists q, pixel_at (binarize mask) i j = Some q /\
       (ch0 q = 255 <-> 0 < ch0 p) /\ (ch0 q = 0 <-> ch0 p <= 0) /\
       (ch1 q = 255 <-> 0 < ch1 p) /\ (ch1 q = 0 <-> ch1 p <= 0) /\
       (ch2 q = 255 <-> 0 < ch2 p) /\ (ch2 q = 0 <-> ch2 p <= 0)).
Proof.
  rewrite binarize_threshold.
  split; [apply hwc_all_map, threshold_0_or_255|].
  split; [intros i j; apply pixel_at_map|].
  split.
  - intros i j [x y z] Hp Hz. rewrite pixel_at_map, Hp; simpl.
    unfold px_zero, px_all in Hz; simpl in Hz.
    apply andb_true_iff in Hz as [Hz Hz2]. apply andb_true_iff in Hz as [Hz0 Hz1].
    apply Z.eqb_eq in Hz0, Hz1, Hz2; subst. reflexivity.
  - intros i j [x y z] Hp. rewrite pixel_at_map, Hp; simpl.
    eexists; split; [reflexivity|]. unfold px_map, threshold; simpl.
    repeat split; intros H;
      repeat match goal with
      | H : context [0 <? ?v] |- _ => destruct (Z.ltb_spec 0 v)
      | |- context [0 <? ?v] => destruct (Z.ltb_spec 0 v)
      end; try lia; try discriminate.
Qed.

Lemma binarize_samplewise_witness :
  pixel_at (binarize [[Px 0 5 0; Px 0 0 0]; [Px 9 255 1; Px 0 0 200]]) 0 1
    = Some black /\
  pixel_at (binarize [[Px 0 5 0; Px 0 0 0]; [Px 9 255 1; Px 0 0 200]]) 0 0
    = Some (Px 0 255 0).
Proof.
  destruct (binarize_samplewise [[Px 0 5 0; Px 0 0 0]; [Px 9 255 1; Px 0 0 200]])
    as (_ & Hs & Hz & _).
  split.
  - apply (Hz 0%nat 1%nat (Px 0 0 0)); reflexivity.
  - rewrite Hs. reflexivity.
Defined.

(** C5: a mask that already holds only 0 and 255 is returned unchanged, and
    binarizing twice is the same as binarizing once. *)
Theorem binarize_idempotent (mask : hwc Z) :
  (is_binary mask = true -> binarize mask = mask) /\
  binarize (binarize mask) = binarize mask.
Proof.
  assert (Hfix : forall m, is_binary m = true -> binarize m = m).
  { intros m Hm. rewrite binarize_threshold.
    apply (hwc_map_id_on threshold is_0_or_255); [apply threshold_fix | exact Hm]. }
  split; [apply Hfix|].
  apply Hfix. rewrite binarize_threshold.
  apply hwc_all_map, threshold_0_or_255.
Qed.

Lemma binarize_idempotent_witness :
  is_binary [[Px 0 255 0; Px 255 255 255]; [Px 0 0 0; Px 255 0 0]] = true /\
  binarize [[Px 0 255 0; Px 255 255 255]; [Px 0 0 0; Px 255 0 0]]
    = [[Px 0 255 0; Px 255 255 255]; [Px 0 0 0; Px 255 0 0]].
Proof.
  split; [reflexivity|].
  apply (proj1 (binarize_idempotent
                  [[Px 0 255 0; Px 255 255 255]; [Px 0 0 0; Px 255 0 0]])).
  reflexivity.
Defined.

End BinarizerFacts.

(** ** Properties of the augmentation pipelines *)

Module AugmentFacts.
Import Augment.

Lemma Qltb_lt (x y : Q) : Qltb x y = true <-> (x < y)%Q.
Proof. unfold Qltb, Qlt. apply Z.ltb_lt. Qed.

Lemma Qltb_ge (x y : Q) : Qltb x y = false <-> (y <= x)%Q.
Proof. unfold Qltb, Qle. apply Z.ltb_ge. Qed.

Lemma unit_draw_fires (g : rng) (n : nat) :
  unit_draws g -> Qltb (draws g n) 1 = true.
Proof. intros Hg. apply Qltb_lt, Hg. Qed.

(** Drawing moves the cursor and leaves the sequence of draws alone. *)
Lemma unit_draws_shift (g : rng) (n : nat) :
  unit_draws g -> unit_draws (Rng (draws g) n).
Proof. intros Hg k; apply Hg. Qed.

(** An angle drawn for a rotation limit of 25 lies within 25 degrees. *)
Lemma uniform_25_range (u : Q) :
  (0 <= u)%Q -> (u < 1)%Q ->
  (- (25) <= - (25) + (25 - - (25)) * u)%Q /\ (- (25) + (25 - - (25)) * u <= 25)%Q.
Proof. intros H0 H1; split; lra. Qed.

Section Pipelines.
Context {A : Type} `{Kernels A}.

(** *** Unfolding one call *)

Lemma call_transform_eq (t : transform) (d : sample A) (g : rng) :
  call_transform t d g =
  if fires t (draws g (cursor g)) then
    let (prm, g') := get_params (t_op t) d (advance g) in
    ((apply_with_params (t_op t) prm d, [(t_op t, prm)]), g')
  else ((Ok d, []), advance g).
Proof.
  unfold call_transform, fires, rand_bind, random_random, advance; simpl.
  destruct (Qltb _ _ || _); reflexivity.
Qed.

Lemma run_transforms_cons (t : transform) (ts : list transform)
    (d : sample A) (g : rng) :
  run_transforms (t :: ts) d g =
  let (r, g') := call_transform t d g in
  match fst r with
  | Ok d' =>
      let (r', g'') := run_transforms ts d' g' in
      ((fst r', snd r ++ snd r'), g'')
  | Raise e => ((Raise e, snd r), g')
  end.
Proof.
  simpl. unfold rand_bind.
  destruct (call_transform t d g) as [[[d'|e] tr] g']; reflexivity.
Qed.

Lemma call_compose_eq (c : compose) (d : sample A) (g : rng) :
  is_check_shapes c = false ->
  Qltb (draws g (cursor g)) (compose_p c) = true ->
  call_compose c d g = run_transforms (transforms c) d (advance g).
Proof.
  intros Hc Hp. unfold call_compose, rand_bind, random_random.
  rewrite Hc; simpl. rewrite Hp. reflexivity.
Qed.

(** No call changes the sequence of draws; it only moves the cursor. *)
Lemma get_params_draws (o : op) (d : sample A) (g : rng) :
  draws (snd (get_params o d g)) = draws g.
Proof. destruct o; reflexivity. Qed.

Lemma call_transform_draws (t : transform) (d : sample A) (g : rng) :
  draws (snd (call_transform t d g)) = draws g.
Proof.
  rewrite call_transform_eq.
  destruct (fires _ _); [|reflexivity].
  pose proof (get_params_draws (t_op t) d (advance g)) as E.
  destruct (get_params _ _ _) as [prm g']; exact E.
Qed.

Lemma unit_draws_ext (g g' : rng) :
  draws g' = draws g -> unit_draws g -> unit_draws g'.
Proof. unfold unit_draws; intros ->; auto. Qed.

(** *** Transforms that fire at every call and draw no parameters *)

Lemma certain_fires (t : transform) (u : Q) :
  certain t = true -> (u < 1)%Q -> fires t u = true.
Proof.
  unfold certain, fires.
  intros [Hc _]%andb_true_iff Hu.
  apply orb_true_iff in Hc as [Ha | Hp].
  - rewrite Ha. apply orb_true_r.
  - apply Qle_bool_iff in Hp.
    apply orb_true_iff; left. apply Qltb_lt.
    eapply Qlt_le_trans; eassumption.
Qed.

Lemma draw_free_params (o : op) (d : sample A) (g1 g2 : rng) :
  draw_free o = true ->
  fst (get_params o d g1) = fst (get_params o d g2).
Proof. destruct o; simpl; intros E; try discriminate E; reflexivity. Qed.

Lemma run_certain (ts : list transform) :
  forallb certain ts = true ->
  forall (d : sample A) (g : rng), unit_draws g ->
    fst (run_transforms ts d g) = pure_run ts d.
Proof.
  induction ts as [|t ts IH]; intros Hts d g Hg; [reflexivity|].
  simpl in Hts. apply andb_true_iff in Hts as [Ht Hts].
  rewrite run_transforms_cons.
  pose proof (call_transform_draws t d g) as Hd.
  rewrite call_transform_eq in Hd |- *.
  rewrite (certain_fires t _ Ht (proj2 (Hg _))) in Hd |- *.
  assert (Hfree : draw_free (t_op t) = true)
    by (unfold certain in Ht; apply andb_true_iff in Ht; tauto).
  pose proof (draw_free_params (t_op t) d (advance g) (Rng (fun _ => 0%Q) 0) Hfree) as Hp.
  cbn [pure_run]. rewrite <- Hp.
  destruct (get_params (t_op t) d (advance g)) as [prm g']; simpl in *.
  destruct (apply_with_params (t_op t) prm d) as [d'|e]; [|reflexivity].
  specialize (IH Hts d' g' (unit_draws_ext _ _ Hd Hg)).
  destruct (run_transforms ts d' g') as [r' g'']; simpl in *.
  now rewrite IH.
Qed.

(** C3: the validation pipeline has no stochastic step: whatever the
    generator returns, a call on the same image and mask gives the same
    result (the same output, or the same exception) and applies the same
    transforms with the same parameters. *)
Theorem valid_transforms_deterministic (img_size : nat * nat) (d : sample A)
    (g1 g2 : rng) :
  unit_draws g1 -> unit_draws g2 ->
  fst (call_compose (valid_transforms img_size) d g1)
  = fst (call_compose (valid_transforms img_size) d g2).
Proof.
  intros H1 H2.
  rewrite !call_compose_eq by (try reflexivity; apply unit_draw_fires; assumption).
  rewrite !run_certain;
    try reflexivity; try (apply unit_draws_shift; assumption).
Qed.

(** *** The rotation step of the train pipeline *)

Ltac step_transform E :=
  rewrite run_transforms_cons, call_transform_eq in E;
  unfold fires, advance in E;
  cbn [p always_apply t_op A_Resize A_PadIfNeeded A_HorizontalFlip
       A_RandomBrightnessContrast A_Rotate A_Normalize draws cursor
       get_params rret apply_with_params random_uniform rand_bind
       random_random pad_amounts orb fst snd rbind] in E.

(** The four transforms that follow the padding, started at cursor [n]. *)
Lemma train_tail_rotation (ds : nat -> Q) (n : nat) (d : sample A) :
  (forall m, (0 <= ds m)%Q /\ (ds m < 1)%Q) ->
  let r := fst (run_transforms
                  [A_HorizontalFlip (5 # 10); A_RandomBrightnessContrast (2 # 10);
                   A_Rotate 25; A_Normalize MEAN STD 255] d (Rng ds n)) in
  let k := if Qltb (ds (S n)) (2 # 10) then (4 + n)%nat else (2 + n)%nat in
  is_ok (fst r) = true /\
  existsb is_rotate (snd r) = Qltb (ds k) (1 # 2) /\
  forall e, In e (snd r) -> is_rotate e = true -> rotation_entry (ds (S k)) e.
Proof.
  intros Hu.
  assert (Hf : forall m, Qltb (ds m) 1 = true) by (intros m; apply Qltb_lt, Hu).
  cbv zeta.
  remember (fst (run_transforms _ d (Rng ds n))) as r eqn:Er.
  step_transform Er.
  destruct (Qltb (ds n) (5 # 10)); cbn [orb fst snd] in Er;
    step_transform Er;
    destruct (Qltb (ds (S n)) (2 # 10)); cbn [orb fst snd] in Er;
    step_transform Er;
    match type of Er with context [Qltb (ds ?i) (1 # 2)] =>
      destruct (Qltb (ds i) (1 # 2)) eqn:Hrot end;
    cbn [orb fst snd] in Er;
    step_transform Er; rewrite Hf in Er; cbn [orb fst snd] in Er;
    cbn [run_transforms rret app] in Er; subst r; cbn [fst snd is_ok];
    (split; [reflexivity|]);
    (split; [cbn; try exact (eq_sym Hrot); try reflexivity|]).
  all: intros e Hin He; cbn [In] in Hin;
    repeat (destruct Hin as [<- | Hin]; [try discriminate He|]);
    try contradiction.
  all: split; [reflexivity|]; eexists; split; [reflexivity|];
    split; [reflexivity|]; apply uniform_25_range; apply Hu.
Qed.

(** C2 (amended): in a successful call of the train pipeline the rotation
    is applied exactly when the draw of the rotation step is below 0.5, the
    probability the library gives a [Rotate] built from a limit alone; when
    it is applied, its angle is computed from the following draw and lies
    within 25 degrees either way.  (The draw of the rotation step is the
    sixth of the call, or the eighth when the brightness/contrast step has
    fired and drawn its two parameters.) *)
Theorem train_rotation_on_half_draw (img_size : nat * nat) (d : sample A)
    (g : rng) :
  unit_draws g ->
  let r := fst (call_compose (train_transforms img_size) d g) in
  let c := cursor g in
  let k := if Qltb (draws g (4 + c)) (2 # 10) then (7 + c)%nat else (5 + c)%nat in
  is_ok (fst r) = true ->
  existsb is_rotate (snd r) = Qltb (draws g k) (1 # 2) /\
  forall e, In e (snd r) -> is_rotate e = true -> rotation_entry (draws g (S k)) e.
Proof.
  intros Hg. destruct g as [ds c].
  assert (Hu : forall n, (0 <= ds n)%Q /\ (ds n < 1)%Q) by (intros n; apply Hg).
  assert (Hf : forall n, Qltb (ds n) 1 = true) by (intros n; apply Qltb_lt, Hu).
  cbv zeta. cbn [cursor draws].
  remember (fst (call_compose (train_transforms img_size) d (Rng ds c))) as r eqn:Er.
  rewrite call_compose_eq in Er by (try reflexivity; apply Hf).
  unfold train_transforms, A_Compose, advance in Er; cbn [transforms draws cursor] in Er.
  step_transform Er. rewrite orb_true_r in Er.
  destruct (cv_resize _ _ INTER_LINEAR (image d)) as [img|e];
    [|subst r; intros Hok; discriminate Hok].
  destruct (cv_resize _ _ INTER_NEAREST (mask d)) as [msk|e];
    [|subst r; intros Hok; discriminate Hok].
  cbn [rbind fst snd] in Er.
  step_transform Er. rewrite Hf in Er. cbn [orb fst snd] in Er.
  match type of Er with context [run_transforms ?ts ?d2 (Rng ds ?n)] =>
    pose proof (train_tail_rotation ds n d2 Hu) as Ht;
    cbv zeta in Ht;
    destruct (run_transforms ts d2 (Rng ds n)) as [[r2 tr2] g2]
  end.
  cbn [fst snd app] in Er, Ht. subst r. cbn [fst snd].
  destruct Ht as (Hok & Hex & Hin). intros _.
  split.
  - cbn [existsb is_rotate fst orb]. exact Hex.
  - intros e [<- | [<- | He]] Hr; try discriminate Hr.
    apply Hin; assumption.
Qed.

(** *** Shapes *)

Context `{!KernelShapes A}.

Lemma call_keeps_shape (t : transform) (s : nat * nat) (d : sample A) (g : rng) :
  keeps_shape t = true -> has_shape s d ->
  exists d', fst (fst (call_transform t d g)) = Ok d' /\ has_shape s d'.
Proof.
  intros Ht [Hi Hm]. rewrite call_transform_eq.
  destruct (fires _ _); [|exists d; split; [reflexivity | split; assumption]].
  unfold keeps_shape in Ht.
  destruct (t_op t); try discriminate Ht; simpl;
    eexists; (split; [reflexivity|]); split; simpl;
    rewrite ?hflip_shape, ?brightness_contrast_adjust_shape, ?rotate_shape,
      ?normalize_shape; assumption.
Qed.

Lemma run_keeps_shape (ts : list transform) (s : nat * nat) :
  forallb keeps_shape ts = true ->
  forall (d : sample A) (g : rng), has_shape s d ->
    exists d', fst (fst (run_transforms ts d g)) = Ok d' /\ has_shape s d'.
Proof.
  induction ts as [|t ts IH]; intros Hts d g Hd.
  - exists d; split; [reflexivity | assumption].
  - simpl in Hts. apply andb_true_iff in Hts as [Ht Hts].
    rewrite run_transforms_cons.
    destruct (call_keeps_shape t s d g Ht Hd) as (d1 & E1 & H1).
    destruct (call_transform t d g) as [[r1 tr1] g1]; simpl in E1; subst r1.
    simpl.
    destruct (IH Hts d1 g1 H1) as (d2 & E2 & H2).
    destruct (run_transforms ts d1 g1) as [[r2 tr2] g2]; simpl in *.
    exists d2; split; assumption.
Qed.

Lemma pad_amounts_4 (h w : nat) :
  pad_amounts (h + 4) (w + 4) h w = PadParams 2 2 2 2.
Proof.
  unfold pad_amounts.
  replace (h <? h + 4)%nat with true by (symmetry; apply Nat.ltb_lt; lia).
  replace (w <? w + 4)%nat with true by (symmetry; apply Nat.ltb_lt; lia).
  replace (h + 4 - h)%nat with 4%nat by lia.
  replace (w + 4 - w)%nat with 4%nat by lia.
  reflexivity.
Qed.

(** A pipeline that resizes, pads by 4 and then only applies
    shape-preserving transforms. *)
Lemma resize_pad_shape (width height : nat) (rest : list transform)
    (d : sample A) (g : rng) :
  forallb keeps_shape rest = true ->
  unit_draws g ->
  (0 < width)%nat -> (0 < height)%nat ->
  (0 < fst (shape (image d)))%nat -> (0 < snd (shape (image d)))%nat ->
  (0 < fst (shape (mask d)))%nat -> (0 < snd (shape (mask d)))%nat ->
  exists out,
    fst (fst (call_compose
                (A_Compose (A_Resize height width true
                            :: A_PadIfNeeded (height + 4) (width + 4) 0 0
                            :: rest) false) d g)) = Ok out /\
    has_shape (height + 4, width + 4)%nat out.
Proof.
  intros Hrest Hg Hw Hh Hi1 Hi2 Hm1 Hm2.
  rewrite call_compose_eq by (try reflexivity; apply unit_draw_fires; assumption).
  cbn [transforms A_Compose].
  rewrite run_transforms_cons, call_transform_eq.
  replace (fires (A_Resize height width true) _) with true
    by (unfold fires; simpl; symmetry; apply orb_true_r).
  cbn [get_params A_Resize t_op rret apply_with_params].
  destruct (cv_resize_shape height width INTER_LINEAR (image d) Hh Hw Hi1 Hi2)
    as (img & Ei & Si).
  destruct (cv_resize_shape height width INTER_NEAREST (mask d) Hh Hw Hm1 Hm2)
    as (msk & Em & Sm).
  rewrite Ei, Em. cbn [rbind fst snd].
  rewrite run_transforms_cons, call_transform_eq.
  replace (fires (A_PadIfNeeded (height + 4) (width + 4) 0 0) _) with true
    by (unfold fires; simpl; symmetry; apply orb_true_iff; left;
        apply (unit_draw_fires g _ Hg)).
  cbn [get_params A_PadIfNeeded t_op rret image mask].
  rewrite Si. cbn [fst snd]. rewrite pad_amounts_4.
  cbn [apply_with_params fst snd image mask].
  match goal with
  | |- context [run_transforms rest ?d2 ?g2] =>
      destruct (run_keeps_shape rest (height + 4, width + 4)%nat Hrest d2 g2)
        as (out & Eo & So);
      [|destruct (run_transforms rest d2 g2) as [[r tr] g3]; simpl in *;
        exists out; split; assumption]
  end.
  split; simpl; rewrite cv_copyMakeBorder_shape;
    [rewrite Si | rewrite Sm]; simpl; f_equal; lia.
Qed.

(** C4: built for a target [(width, height)], the train and the validation
    pipeline both turn a non-empty image and a non-empty mask, of whatever
    sizes, into an image and a mask of [height + 4] rows and [width + 4]
    columns. *)
Theorem pipelines_fixed_shape (width height : nat) (d : sample A) (g : rng) :
  unit_draws g ->
  (0 < width)%nat -> (0 < height)%nat ->
  (0 < fst (shape (image d)))%nat -> (0 < snd (shape (image d)))%nat ->
  (0 < fst (shape (mask d)))%nat -> (0 < snd (shape (mask d)))%nat ->
  (exists out,
     fst (fst (call_compose (train_transforms (width, height)) d g)) = Ok out /\
     shape (image out) = (height + 4, width + 4)%nat /\
     shape (mask out) = (height + 4, width + 4)%nat) /\
  (exists out,
     fst (fst (call_compose (valid_transforms (width, height)) d g)) = Ok out /\
     shape (image out) = (height + 4, width + 4)%nat /\
     shape (mask out) = (height + 4, width + 4)%nat).
Proof.
  intros Hg Hw Hh Hi1 Hi2 Hm1 Hm2.
  split; unfold train_transforms, valid_transforms; cbn [fst snd];
    apply resize_pad_shape; auto.
Qed.

End Pipelines.

(** *** Concrete runs *)

Lemma shape_only_shapes : @KernelShapes (nat * nat) ShapeOnly.kernels.
Proof.
  split; try reflexivity.
  intros h w i a Hh Hw Ha1 Ha2; simpl in *.
  exists (h, w); split; [|reflexivity].
  unfold ShapeOnly.resize.
  destruct h, w, a as [[|r] [|c]]; simpl in *; try lia; reflexivity.
Qed.

Lemma constant_unit_draws (u : Q) :
  (0 <= u)%Q -> (u < 1)%Q -> unit_draws (ShapeOnly.constant u).
Proof. intros H0 H1 n; split; assumption. Qed.

Lemma quarter_unit : unit_draws (ShapeOnly.constant (1 # 4)).
Proof. apply constant_unit_draws; [discriminate | reflexivity]. Qed.

Lemma three_quarters_unit : unit_draws (ShapeOnly.constant (3 # 4)).
Proof. apply constant_unit_draws; [discriminate | reflexivity]. Qed.

(** C2, as stated, fails: when the draw of the rotation step is 0.75 the
    call succeeds and no rotation is applied. *)
Lemma rotation_not_always_applied : ~ rotation_always_applied.
Proof.
  intros Hc.
  specialize (Hc (nat * nat)%type ShapeOnly.kernels (32, 16)%nat
                 (Sample (7, 9)%nat (3, 5)%nat) (ShapeOnly.constant (3 # 4))
                 three_quarters_unit eq_refl).
  vm_compute in Hc. discriminate Hc.
Qed.

Lemma train_rotation_on_half_draw_witness :
  existsb is_rotate
    (snd (fst (@call_compose _ ShapeOnly.kernels (train_transforms (32, 16)%nat)
                 (Sample (7, 9)%nat (3, 5)%nat) (ShapeOnly.constant (1 # 4)))))
  = true.
Proof.
  pose proof (@train_rotation_on_half_draw _ ShapeOnly.kernels (32, 16)%nat
                (Sample (7, 9)%nat (3, 5)%nat) (ShapeOnly.constant (1 # 4))
                quarter_unit eq_refl) as [E _].
  exact E.
Defined.

Lemma valid_transforms_deterministic_witness :
  fst (@call_compose _ ShapeOnly.kernels (valid_transforms (32, 16)%nat)
         (Sample (7, 9)%nat (3, 5)%nat) (ShapeOnly.constant (1 # 4)))
  = fst (@call_compose _ ShapeOnly.kernels (valid_transforms (32, 16)%nat)
           (Sample (7, 9)%nat (3, 5)%nat) (ShapeOnly.constant (3 # 4))).
Proof.
  apply (@valid_transforms_deterministic _ ShapeOnly.kernels (32, 16)%nat
           (Sample (7, 9)%nat (3, 5)%nat));
    [exact quarter_unit | exact three_quarters_unit].
Defined.

Lemma pipelines_fixed_shape_witness :
  (exists out,
     fst (fst (@call_compose _ ShapeOnly.kernels (train_transforms (32, 16)%nat)
                 (Sample (7, 9)%nat (3, 5)%nat) (ShapeOnly.constant (1 # 4))))
     = Ok out /\
     image out = (20, 36)%nat /\ mask out = (20, 36)%nat) /\
  (exists out,
     fst (fst (@call_compose _ ShapeOnly.kernels (valid_transforms (32, 16)%nat)
                 (Sample (7, 9)%nat (3, 5)%nat) (ShapeOnly.constant (1 # 4))))
     = Ok out /\
     image out = (20, 36)%nat /\ mask out = (20, 36)%nat).
Proof.
  apply (@pipelines_fixed_shape _ ShapeOnly.kernels shape_only_shapes 32 16
           (Sample (7, 9)%nat (3, 5)%nat) (ShapeOnly.constant (1 # 4)));
    [exact quarter_unit | simpl; lia ..].
Defined.

End AugmentFacts.

(** ** Properties of the file discoverer *)

Module DiscoverFacts.
Import Discover.

Lemma compare_not_Gt_trans (a b c : string) :
  String.compare a b <> Gt -> String.compare b c <> Gt ->
  String.compare a c <> Gt.
Proof.
  revert b c; induction a as [|x a IH]; intros [|y b] [|z c]; simpl;
    try congruence.
  unfold Ascii.compare.
  destruct (N.compare_spec (N_of_ascii x) (N_of_ascii y)),
           (N.compare_spec (N_of_ascii y) (N_of_ascii z)),
           (N.compare_spec (N_of_ascii x) (N_of_ascii z));
    try congruence; try lia; eauto.
Qed.

Lemma leb_not_Gt (a b : string) : String.leb a b = true <-> String.compare a b <> Gt.
Proof. unfold String.leb. destruct (String.compare a b); split; congruence. Qed.

#[export] Instance path_le_total : Total path_le.
Proof. intros a b. apply String.leb_total. Qed.

#[export] Instance path_le_trans : Transitive path_le.
Proof.
  intros a b c. unfold path_le. rewrite !leb_not_Gt.
  apply compare_not_Gt_trans.
Qed.

Lemma list_sort_sorted (l : list string) : StronglySorted path_le (list_sort l).
Proof. apply StronglySorted_merge_sort; apply _. Qed.

Lemma list_sort_perm (l : list string) : Permutation (list_sort l) l.
Proof. apply merge_sort_Permutation. Qed.

Lemma list_sort_listing (glob_glob : string -> list string) (pattern : string) :
  sorted_listing glob_glob pattern (list_sort (glob_glob pattern)).
Proof.
  split; [apply list_sort_sorted|].
  split; [apply list_sort_perm|].
  apply Permutation_length, list_sort_perm.
Qed.

(** C6: whatever the file system holds, each of the four lists returned for
    a root is in ascending order of the path strings and has as many entries
    as the pattern of its subdirectory matches (it is a rearrangement of the
    matches). *)
Theorem get_images_sorted (glob_glob : string -> list string) (root_path : string) :
  let '(train_images, train_masks, valid_images, valid_masks) :=
    get_images glob_glob root_path in
  sorted_listing glob_glob (root_path ++ "/train_images/*")%string train_images /\
  sorted_listing glob_glob (root_path ++ "/train_masks/*")%string train_masks /\
  sorted_listing glob_glob (root_path ++ "/valid_images/*")%string valid_images /\
  sorted_listing glob_glob (root_path ++ "/valid_masks/*")%string valid_masks.
Proof.
  unfold get_images; cbv zeta.
  repeat split; apply list_sort_listing.
Qed.

Example get_images_toy :
  get_images toy_glob "data"
  = (["data/train_images/10.png"; "data/train_images/9.png";
      "data/train_images/a.png"; "data/train_images/b.png"]%string,
     ["data/train_masks/a.png"; "data/train_masks/b.png"]%string, [], []).
Proof. vm_compute. reflexivity. Qed.

End DiscoverFacts.

(** ** Properties of the batch collator *)

Module CollateFacts.
Import Collate.

Lemma shape_eqb_eq (s1 s2 : list nat) : shape_eqb s1 s2 = true <-> s1 = s2.
Proof.
  revert s2; induction s1 as [|x s1 IH]; intros [|y s2]; simpl;
    try (split; congruence).
  rewrite andb_true_iff, Nat.eqb_eq, IH. split.
  - intros [-> ->]; reflexivity.
  - intros [= -> ->]; auto.
Qed.

Section Stack.
Context {E : Type}.

Lemma torch_stack_ok (s : list nat) (ts : list (tensor E)) :
  ts <> [] -> Forall (fun t => t_shape t = s) ts ->
  torch_stack ts = Ok (Tensor (length ts :: s) (concat (map t_data ts))).
Proof.
  intros Hne Hall. destruct ts as [|t rest]; [congruence|].
  apply Forall_cons in Hall as [Ht Hrest]. unfold torch_stack.
  replace (forallb _ rest) with true; [now rewrite Ht|].
  symmetry. apply forallb_forall. intros t' Hin.
  apply shape_eqb_eq. rewrite Ht.
  rewrite Forall_forall in Hrest. apply Hrest, list_elem_of_In, Hin.
Qed.

(** A stack that succeeds was given tensors of one shape. *)
Lemma torch_stack_ok_inv (ts : list (tensor E)) (r : tensor E) :
  torch_stack ts = Ok r ->
  exists s, Forall (fun t => t_shape t = s) ts.
Proof.
  destruct ts as [|t rest]; [discriminate|]. unfold torch_stack.
  destruct (forallb _ rest) eqn:Hall; [|discriminate]. intros _.
  exists (t_shape t). constructor; [reflexivity|].
  apply Forall_forall. intros t' Hin%list_elem_of_In.
  rewrite forallb_forall in Hall. apply shape_eqb_eq, Hall, Hin.
Qed.

Lemma torch_stack_raises (ts : list (tensor E)) (e : exn) :
  torch_stack ts = Raise e -> e = RuntimeError.
Proof.
  destruct ts as [|t rest]; simpl; [congruence|].
  destruct (forallb _ rest); congruence.
Qed.

(** The slices of a stack are the tensors it was built from. *)
Lemma select_stack (s : list nat) (ts : list (tensor E)) (k : nat) (t : tensor E) :
  Forall (fun t => t_shape t = s /\ well_formed t) ts ->
  ts !! k = Some t ->
  select (Tensor (length ts :: s) (concat (map t_data ts))) k = t.
Proof.
  intros Hall Hk. unfold select; simpl.
  assert (Ht : t_shape t = s /\ well_formed t)
    by (rewrite Forall_lookup in Hall; eapply Hall; eassumption).
  destruct Ht as [Hs Hw]. destruct t as [sh dat]; simpl in *; subst sh.
  f_equal. apply take_drop_concat.
  - apply Forall_forall. intros l [t' [<- Hin]]%list_elem_of_In%in_map_iff.
    rewrite Forall_forall in Hall.
    destruct (Hall t' (proj2 (list_elem_of_In _ _) Hin)) as [Hs' Hw'].
    unfold well_formed in Hw'. now rewrite Hw', Hs'.
  - rewrite lookup_map, Hk. reflexivity.
Qed.

End Stack.

Section CollateFn.
Context {E L : Type}.

Lemma Forall_map_fst {P : tensor E -> Prop} {Q : tensor L -> Prop}
    (inputs : list (tensor E * tensor L)) :
  Forall (fun s => P (fst s) /\ Q (snd s)) inputs ->
  Forall P (map fst inputs) /\ Forall Q (map snd inputs).
Proof.
  induction 1 as [|s inputs [Hp Hq] _ [IHp IHq]]; simpl; split; constructor; auto.
Qed.

(** C7: a non-empty sequence of K samples, each an image of shape (C, H, W)
    and a label of shape (H, W), is collated into a mapping with the keys 0
    and 1, in this order, holding a (K, C, H, W) tensor whose k-th slice is
    the k-th image and a (K, H, W) tensor whose k-th slice is the k-th
    label; a sequence in which two images or two labels differ in shape makes
    the collation raise. *)
Theorem collate_fn_stacks (inputs : list (tensor E * tensor L)) :
  (forall C H W,
     inputs <> [] -> Forall (sample_shaped C H W) inputs ->
     exists batch images labels,
       collate_fn inputs = Ok batch /\
       dict_keys batch = [0; 1] /\
       batch = [(0, inl images); (1, inr labels)] /\
       t_shape images = [length inputs; C; H; W] /\
       t_shape labels = [length inputs; H; W] /\
       forall k s, inputs !! k = Some s ->
         select images k = fst s /\ select labels k = snd s) /\
  (ragged inputs -> collate_fn inputs = Raise RuntimeError).
Proof.
  split.
  - intros C H W Hne Hall.
    destruct (Forall_map_fst
                (P := fun t => t_shape t = [C; H; W] /\ well_formed t)
                (Q := fun t => t_shape t = [H; W] /\ well_formed t)
                inputs Hall) as [Hi Hl].
    assert (Hne1 : map fst inputs <> []) by (destruct inputs; simpl; congruence).
    assert (Hne2 : map snd inputs <> []) by (destruct inputs; simpl; congruence).
    unfold collate_fn; cbv zeta.
    rewrite (torch_stack_ok [C; H; W]), (torch_stack_ok [H; W]); try assumption;
      try (eapply Forall_impl; [eassumption | intros ? [? _]; assumption]).
    simpl. do 3 eexists. split; [reflexivity|].
    split; [reflexivity|]. split; [reflexivity|].
    split; [simpl; now rewrite length_map|].
    split; [simpl; now rewrite length_map|].
    intros k s Hk.
    split; apply select_stack; try assumption; rewrite lookup_map, Hk; reflexivity.
  - intros (i & j & s & s' & Hi & Hj & Hdiff).
    unfold collate_fn; cbv zeta.
    destruct (torch_stack (map fst inputs)) as [images|e] eqn:E1; simpl.
    + destruct (torch_stack (map snd inputs)) as [labels|e] eqn:E2; simpl.
      * exfalso.
        destruct (torch_stack_ok_inv _ _ E1) as [s1 H1].
        destruct (torch_stack_ok_inv _ _ E2) as [s2 H2].
        rewrite Forall_lookup in H1. rewrite Forall_lookup in H2.
        assert (F : forall k x, inputs !! k = Some x ->
                      t_shape (fst x) = s1 /\ t_shape (snd x) = s2).
        { intros k x Hk; split; [apply (H1 k) | apply (H2 k)];
            rewrite lookup_map, Hk; reflexivity. }
        destruct (F i s Hi) as [A1 A2], (F j s' Hj) as [B1 B2].
        destruct Hdiff as [D | D]; apply D; congruence.
      * now rewrite (torch_stack_raises _ _ E2).
    + now rewrite (torch_stack_raises _ _ E1).
Qed.

(** C10: collating the empty sequence raises; no empty batch is returned. *)
Theorem collate_fn_empty :
  @collate_fn E L [] = Raise RuntimeError /\
  is_ok (@collate_fn E L []) = false.
Proof. split; reflexivity. Qed.

End CollateFn.

Lemma collate_fn_stacks_witness :
  (exists images labels,
     collate_fn [(Tensor [1; 1; 2]%nat [1; 2], Tensor [1; 2]%nat [5; 6]);
                 (Tensor [1; 1; 2]%nat [3; 4], Tensor [1; 2]%nat [7; 8])]
     = Ok [(0, inl images); (1, inr labels)] /\
     t_shape images = [2; 1; 1; 2]%nat /\ t_shape labels = [2; 1; 2]%nat) /\
  collate_fn [(Tensor [1; 1; 2]%nat [1; 2], Tensor [1; 2]%nat [5; 6]);
              (Tensor [1; 1; 2]%nat [3; 4], Tensor [1; 1]%nat [7])]
  = Raise RuntimeError.
Proof.
  split.
  - destruct (proj1 (collate_fn_stacks
                [(Tensor [1; 1; 2]%nat [1; 2], Tensor [1; 2]%nat [5; 6]);
                 (Tensor [1; 1; 2]%nat [3; 4], Tensor [1; 2]%nat [7; 8])])
                1%nat 1%nat 2%nat)
      as (batch & images & labels & Hc & _ & -> & Hi & Hl & _).
    + discriminate.
    + repeat constructor.
    + exists images, labels. repeat split; assumption.
  - apply (proj2 (collate_fn_stacks _)).
    exists 0%nat, 1%nat; do 2 eexists.
    split; [reflexivity|]. split; [reflexivity|].
    right; simpl; discriminate.
Defined.

End CollateFacts.

(** ** Properties of the segmentation dataset *)

Module DatasetFacts.
Import Dataset Toy.

(** *** List indexing *)

Lemma py_getitem_raises {X} (l : list X) (i : Z) (e : exn) :
  py_getitem l i = Raise e -> e = IndexError.
Proof.
  unfold py_getitem.
  destruct (_ && _); [|congruence].
  destruct (l !! _); congruence.
Qed.

(** The indices a list rejects: those at or beyond its length, and the
    negative ones below minus its length. *)
Lemma py_getitem_out_of_range {X} (l : list X) (i : Z) :
  py_getitem l i = Raise IndexError
  <-> Z.of_nat (length l) <= i \/ i < - Z.of_nat (length l).
Proof.
  unfold py_getitem.
  set (n := Z.of_nat (length l)).
  set (j := if i <? 0 then n + i else i).
  assert (Hj : (0 <= j < n) <-> ~ (n <= i \/ i < - n))
    by (subst j; destruct (Z.ltb_spec i 0); lia).
  destruct (Z.leb_spec 0 j), (Z.ltb_spec j n); simpl;
    try (split; [intros _; lia | reflexivity]).
  destruct (l !! Z.to_nat j) as [x|] eqn:E.
  - split; [discriminate | lia].
  - apply lookup_ge_None in E. lia.
Qed.

Lemma py_getitem_beyond {X} (l : list X) (i : Z) :
  Z.of_nat (length l) <= i -> py_getitem l i = Raise IndexError.
Proof. intros Hi. apply py_getitem_out_of_range. now left. Qed.

(** *** Methods that leave the object alone *)

Lemma keeps_self_mret {X} (x : X) : keeps_self (mret x).
Proof. intros h; reflexivity. Qed.

Lemma keeps_self_attr {X} (f : dataset -> X) : keeps_self (attr f).
Proof. intros h; reflexivity. Qed.

Lemma keeps_self_eval {X} (r : result X) : keeps_self (eval r).
Proof. intros h; reflexivity. Qed.

Lemma keeps_self_with_rng {X} (m : rand (result X * Augment.trace)) :
  keeps_self (with_rng m).
Proof. intros h; unfold with_rng. destruct (m (gen h)); reflexivity. Qed.

Lemma keeps_self_mbind {X Y} (m : M X) (k : X -> M Y) :
  keeps_self m -> (forall x, keeps_self (k x)) -> keeps_self (mbind m k).
Proof.
  intros Hm Hk h. unfold mbind.
  specialize (Hm h). destruct (m h) as [[x|e] h']; simpl in *.
  - now rewrite Hk.
  - exact Hm.
Qed.

Create HintDb frame.
#[local] Hint Resolve keeps_self_mret keeps_self_attr keeps_self_eval
  keeps_self_with_rng : frame.

Section Methods.
Context {A F : Type} `{Augment.Kernels A}.
Variable set_class_values : list string -> list string -> result (list nat).
Variable get_label_mask : A -> list nat -> list (px Z) -> result (list (list Z)).
Variable cv_imread : string -> option (hwc Z).
Variable astype_float32 : hwc Z -> A.
Variable chw_tensor : A -> tensor F.

Local Abbreviation getitem :=
  (getitem get_label_mask cv_imread astype_float32 chw_tensor).
Local Abbreviation accesses :=
  (accesses get_label_mask cv_imread astype_float32 chw_tensor).
Local Abbreviation init := (init set_class_values).

Lemma getitem_keeps_self (index : Z) : keeps_self (getitem index).
Proof.
  unfold Dataset.getitem.
  repeat (apply keeps_self_mbind; [auto with frame | intros ?]).
  auto with frame.
Qed.

Lemma accesses_keep_self (indices : list Z) (h : heap) :
  self (accesses indices h) = self h.
Proof.
  revert h; induction indices as [|i rest IH]; intros h; [reflexivity|].
  simpl. rewrite IH. apply getitem_keeps_self.
Qed.

(** C8: an access leaves the object as it was, whether it returns or
    raises; so after any sequence of accesses a constructed dataset still
    holds the path lists it was given and the class values
    [set_class_values] computed at construction. *)
Theorem getitem_state_unchanged
    (image_paths mask_paths : list string) (tfms : Augment.compose)
    (label_colors_list : list (px Z)) (classes_to_train all_classes : list string)
    (ds : dataset) :
  init image_paths mask_paths tfms label_colors_list classes_to_train all_classes
    = Ok ds ->
  forall (g : rng) (indices : list Z) (index : Z),
    let h := accesses indices (Heap ds g) in
    self (snd (getitem index h)) = self h /\
    self h = ds /\
    set_class_values all_classes classes_to_train = Ok (class_values (self h)) /\
    Dataset.image_paths (self h) = image_paths /\
    Dataset.mask_paths (self h) = mask_paths.
Proof.
  intros Hinit g indices index h.
  assert (Hh : self h = ds) by apply accesses_keep_self.
  split; [apply getitem_keeps_self|]. split; [exact Hh|].
  rewrite Hh. unfold Dataset.init in Hinit.
  destruct (set_class_values all_classes classes_to_train) as [cv|e];
    simpl in Hinit; [|discriminate].
  injection Hinit as <-. repeat split.
Qed.

(** C9: the length of a dataset is the length of its image path list;
    construction succeeds whatever the mask path list is; the look-up in the
    mask path list raises [IndexError] exactly for an index at or beyond the
    length of that list (or, counting from the end, below minus that
    length); and an access at an index at or beyond the length of the mask
    path list raises [IndexError] (provided the image at that index, if
    there is one, can be read). *)
Theorem len_ignores_mask_paths
    (image_paths mask_paths : list string) (tfms : Augment.compose)
    (label_colors_list : list (px Z)) (classes_to_train all_classes : list string)
    (cv : list nat) :
  set_class_values all_classes classes_to_train = Ok cv ->
  exists ds,
    init image_paths mask_paths tfms label_colors_list classes_to_train all_classes
      = Ok ds /\
    len ds = length image_paths /\
    Dataset.mask_paths ds = mask_paths /\
    forall (g : rng) (index : Z),
      (py_getitem mask_paths index = Raise IndexError
       <-> Z.of_nat (length mask_paths) <= index
           \/ index < - Z.of_nat (length mask_paths)) /\
      (Z.of_nat (length mask_paths) <= index ->
       (forall path, py_getitem image_paths index = Ok path ->
                     cv_imread path <> None) ->
       fst (getitem index (Heap ds g)) = Raise IndexError).
Proof.
  intros Hcv. unfold Dataset.init. rewrite Hcv; simpl.
  eexists; split; [reflexivity|]. split; [reflexivity|]. split; [reflexivity|].
  intros g index. split; [apply py_getitem_out_of_range|].
  intros Hge Hread.
  unfold Dataset.getitem, mbind, attr, eval; simpl.
  destruct (py_getitem image_paths index) as [path|e] eqn:Ei; simpl.
  - destruct (cv_imread path) as [img|] eqn:Er; [|now apply Hread in Er].
    simpl.
    rewrite (py_getitem_beyond mask_paths index Hge). reflexivity.
  - now rewrite (py_getitem_raises _ _ _ Ei).
Qed.

End Methods.

(** *** A concrete dataset *)

Lemma getitem_state_unchanged_witness :
  let h := toy_accesses [0; 5; -1] (Heap toy_dataset (ShapeOnly.constant (1 # 4))) in
  self (snd (toy_getitem 0 h)) = self h /\
  self h = toy_dataset /\
  set_class_values_spec ["bg"; "road"; "car"]%string ["road"; "car"]%string
    = Ok (class_values (self h)) /\
  image_paths (self h) = ["a.png"%string] /\
  mask_paths (self h) = [].
Proof.
  apply (@getitem_state_unchanged _ _ ShapeOnly.kernels set_class_values_spec
           toy_label_mask toy_imread toy_float32 toy_chw
           ["a.png"%string] [] (valid_transforms (32, 16)%nat)
           [Px 0 0 0; Px 255 255 255; Px 255 0 0]
           ["road"; "car"]%string ["bg"; "road"; "car"]%string toy_dataset).
  reflexivity.
Defined.

Lemma len_ignores_mask_paths_witness :
  exists ds,
    init set_class_values_spec ["a.png"%string] [] (valid_transforms (32, 16)%nat)
         [Px 0 0 0; Px 255 255 255; Px 255 0 0]
         ["road"; "car"]%string ["bg"; "road"; "car"]%string = Ok ds /\
    len ds = 1%nat /\
    fst (toy_getitem 0 (Heap ds (ShapeOnly.constant (1 # 4)))) = Raise IndexError.
Proof.
  destruct (@len_ignores_mask_paths _ _ ShapeOnly.kernels set_class_values_spec
              toy_label_mask toy_imread toy_float32 toy_chw
              ["a.png"%string] [] (valid_transforms (32, 16)%nat)
              [Px 0 0 0; Px 255 255 255; Px 255 0 0]
              ["road"; "car"]%string ["bg"; "road"; "car"]%string [1; 2]%nat
              eq_refl)
    as (ds & Hinit & Hlen & _ & Hget).
  exists ds. split; [exact Hinit|]. split; [exact Hlen|].
  apply (Hget (ShapeOnly.constant (1 # 4)) 0); [simpl; lia |].
  intros path [= <-]. discriminate.
Defined.

End DatasetFacts.

(** ** Further properties of the file discoverer *)

Module PairingFacts.
Import Discover DiscoverFacts Pairing.

#[export] Instance path_le_antisym : AntiSymm (=) path_le.
Proof. intros a b Hab Hba. apply String.leb_antisym; assumption. Qed.

(** Sorting forgets the order of the listing. *)
Lemma list_sort_order_free (l1 l2 : list string) :
  Permutation l1 l2 -> list_sort l1 = list_sort l2.
Proof.
  intros Hp.
  apply (StronglySorted_unique path_le); try apply list_sort_sorted.
  rewrite !list_sort_perm. exact Hp.
Qed.

(** X1: the four lists do not depend on the order in which the file system
    lists a directory: two globs that return the same paths for every
    pattern, in whatever orders, give the same result. *)
Theorem get_images_order_free (glob1 glob2 : string -> list string)
    (root_path : string) :
  (forall pattern, Permutation (glob1 pattern) (glob2 pattern)) ->
  get_images glob1 root_path = get_images glob2 root_path.
Proof.
  intros Hp. unfold get_images; cbv zeta.
  rewrite !(list_sort_order_free _ _ (Hp _)). reflexivity.
Qed.

Lemma get_images_order_free_witness :
  get_images toy_glob "data"
  = get_images (fun pattern => rev (toy_glob pattern)) "data".
Proof.
  apply get_images_order_free.
  intros pattern. apply Permutation_rev.
Defined.

(** A common prefix does not change how two paths compare. *)
Lemma compare_prefix (prefix a b : string) :
  String.compare (prefix ++ a) (prefix ++ b) = String.compare a b.
Proof.
  induction prefix as [|c prefix IH]; simpl; [reflexivity|].
  replace (Ascii.compare c c) with Eq; [exact IH|].
  symmetry. unfold Ascii.compare. apply N.compare_refl.
Qed.

Lemma path_le_prefix (prefix a b : string) :
  path_le a b -> path_le (prefix ++ a) (prefix ++ b).
Proof. unfold path_le, String.leb. now rewrite compare_prefix. Qed.

Lemma list_sort_prefix (prefix : string) (names : list string) :
  list_sort (String.append prefix <$> names)
  = String.append prefix <$> list_sort names.
Proof.
  apply (StronglySorted_unique path_le).
  - apply list_sort_sorted.
  - apply StronglySorted_fmap with (R1 := path_le).
    + intros a b. apply path_le_prefix.
    + apply list_sort_sorted.
  - rewrite !list_sort_perm. reflexivity.
Qed.

Lemma append_assoc (a b c : string) :
  ((a ++ b) ++ c = a ++ b ++ c)%string.
Proof. induction a as [|x a IH]; simpl; [reflexivity | now rewrite IH]. Qed.

Lemma sorted_aligned (image_dir mask_dir : string)
    (images masks names : list string) :
  Permutation images (String.append image_dir <$> names) ->
  Permutation masks (String.append mask_dir <$> names) ->
  aligned image_dir mask_dir (list_sort images) (list_sort masks).
Proof.
  intros Hi Hm.
  rewrite (list_sort_order_free _ _ Hi), (list_sort_order_free _ _ Hm).
  rewrite !list_sort_prefix. split; [now rewrite !length_fmap|].
  intros k ip mp Hki Hkm.
  rewrite list_lookup_fmap in Hki, Hkm.
  destruct (list_sort names !! k) as [name|]; [|discriminate].
  simpl in Hki, Hkm. injection Hki as <-. injection Hkm as <-.
  exists name. split; reflexivity.
Qed.

(** X2: when an image directory and its mask directory hold files of the
    same names, the image list and the mask list returned for them are
    aligned: they have the same length and at every position the image path
    and the mask path end in the same file name.  This holds for the train
    pair and for the validation pair. *)
Theorem get_images_aligned (glob_glob : string -> list string)
    (root_path : string) (train_names valid_names : list string) :
  Permutation (glob_glob (root_path ++ "/train_images/*")%string)
              (String.append (root_path ++ "/train_images/") <$> train_names) ->
  Permutation (glob_glob (root_path ++ "/train_masks/*")%string)
              (String.append (root_path ++ "/train_masks/") <$> train_names) ->
  Permutation (glob_glob (root_path ++ "/valid_images/*")%string)
              (String.append (root_path ++ "/valid_images/") <$> valid_names) ->
  Permutation (glob_glob (root_path ++ "/valid_masks/*")%string)
              (String.append (root_path ++ "/valid_masks/") <$> valid_names) ->
  let '(train_images, train_masks, valid_images, valid_masks) :=
    get_images glob_glob root_path in
  aligned (root_path ++ "/train_images/") (root_path ++ "/train_masks/")
          train_images train_masks /\
  aligned (root_path ++ "/valid_images/") (root_path ++ "/valid_masks/")
          valid_images valid_masks.
Proof.
  intros Hti Htm Hvi Hvm. unfold get_images; cbv zeta.
  split; eapply sorted_aligned; eassumption.
Qed.

Lemma get_images_aligned_witness :
  let '(train_images, train_masks, valid_images, valid_masks) :=
    get_images Readable.glob "d" in
  aligned "d/train_images/" "d/train_masks/" train_images train_masks /\
  aligned "d/valid_images/" "d/valid_masks/" valid_images valid_masks.
Proof.
  apply (get_images_aligned Readable.glob "d"
           ["a.png"; "b.png"; "c.png"]%string ["z.png"]%string).
  - simpl. apply perm_trans with
      ["d/train_images/a.png"; "d/train_images/b.png"; "d/train_images/c.png"]%string;
      [apply perm_swap | reflexivity].
  - symmetry.
    exact (Permutation_rev
             ["d/train_masks/a.png"; "d/train_masks/b.png"; "d/train_masks/c.png"]%string).
  - reflexivity.
  - reflexivity.
Defined.

End PairingFacts.

(** ** Further properties of the augmentation pipelines *)

Module PipelineFacts.
Import Augment AugmentFacts Trace.

Section Pipelines.
Context {A : Type} `{Kernels A}.

Lemma call_transform_ops (t : transform) (d : sample A) (g : rng) :
  ops (snd (fst (call_transform t d g))) = [t_op t] \/
  ops (snd (fst (call_transform t d g))) = [].
Proof.
  rewrite call_transform_eq.
  destruct (fires _ _); [|right; reflexivity].
  destruct (get_params _ _ _); left; reflexivity.
Qed.

Lemma run_transforms_ops (ts : list transform) :
  forall (d : sample A) (g : rng),
    ops (snd (fst (run_transforms ts d g))) `sublist_of` map t_op ts.
Proof.
  induction ts as [|t ts IH]; intros d g; [constructor|].
  rewrite run_transforms_cons.
  pose proof (call_transform_ops t d g) as Ht.
  destruct (call_transform t d g) as [[r1 tr1] g1]; simpl in Ht.
  destruct r1 as [d1|e]; simpl.
  - specialize (IH d1 g1).
    destruct (run_transforms ts d1 g1) as [[r2 tr2] g2]; simpl in *.
    unfold ops in *. rewrite map_app.
    destruct Ht as [-> | ->]; simpl; [apply sublist_skip | apply sublist_cons];
      exact IH.
  - unfold ops in *.
    destruct Ht as [-> | ->]; [apply sublist_skip | apply sublist_cons];
      apply sublist_nil_l.
Qed.

Lemma map_sublist {X Y} (f : X -> Y) (l1 l2 : list X) :
  l1 `sublist_of` l2 -> map f l1 `sublist_of` map f l2.
Proof. induction 1; simpl; [constructor | now apply sublist_skip | now apply sublist_cons]. Qed.

(** X3: a call of a pipeline applies its transforms in the order in which
    they were composed, each one at most once: the operations it applied
    are a sub-list of the operations of the pipeline.  This holds for every
    pipeline, input and generator, also when the call raises. *)
Theorem compose_applies_in_order (c : compose) (d : sample A) (g : rng) :
  ops (snd (fst (call_compose c d g))) `sublist_of` map t_op (transforms c).
Proof.
  unfold call_compose.
  destruct (is_check_shapes c && _); [apply sublist_nil_l|].
  unfold rand_bind, random_random.
  destruct (Qltb _ _); [apply run_transforms_ops|].
  etransitivity; [apply run_transforms_ops|].
  apply map_sublist, sublist_filter.
Qed.

(** X4: what the validation pipeline returns.  When the two resizes succeed
    and give the target shape, the image is the resized image (linear
    interpolation), padded by two pixels on each side and normalized; the
    mask is the resized mask (nearest-neighbour interpolation), padded by
    the same two pixels on each side and not normalized. *)
Theorem valid_transforms_output (img_size : nat * nat) (d : sample A) (g : rng)
    (img msk : A) :
  unit_draws g ->
  cv_resize (snd img_size) (fst img_size) INTER_LINEAR (image d) = Ok img ->
  cv_resize (snd img_size) (fst img_size) INTER_NEAREST (mask d) = Ok msk ->
  shape img = (snd img_size, fst img_size) ->
  fst (fst (call_compose (valid_transforms img_size) d g))
  = Ok (Sample
          (normalize MEAN STD 255
             (cv_copyMakeBorder 2 2 2 2 BORDER_REFLECT_101 0 img))
          (cv_copyMakeBorder 2 2 2 2 BORDER_REFLECT_101 0 msk)).
Proof.
  intros Hg Hi Hm Hs.
  rewrite call_compose_eq by (try reflexivity; apply unit_draw_fires; assumption).
  rewrite run_certain by (try reflexivity; apply unit_draws_shift; assumption).
  unfold valid_transforms, A_Compose; cbn [transforms pure_run].
  cbn [A_Resize t_op get_params rret fst apply_with_params].
  rewrite Hi, Hm. cbn [rbind].
  cbn [A_PadIfNeeded t_op get_params rret fst image].
  rewrite Hs. cbn [fst snd]. rewrite pad_amounts_4.
  reflexivity.
Qed.

Ltac step_in E :=
  rewrite run_transforms_cons, call_transform_eq in E;
  unfold fires, advance in E;
  cbn [p always_apply t_op A_Resize A_PadIfNeeded A_HorizontalFlip
       A_RandomBrightnessContrast A_Rotate A_Normalize draws cursor
       get_params rret apply_with_params random_uniform rand_bind
       random_random pad_amounts orb fst snd rbind] in E.

(** The train pipeline with every case of its three probability draws laid
    out. *)
Lemma train_run_cases (img_size : nat * nat) (d : sample A) (ds : nat -> Q)
    (c : nat) :
  unit_draws (Rng ds c) ->
  forall r, r = fst (call_compose (train_transforms img_size) d (Rng ds c)) ->
  is_ok (fst r) = true ->
  (existsb is_resize (snd r) = true /\
   existsb is_pad (snd r) = true /\
   existsb is_normalize (snd r) = true /\
   existsb is_hflip (snd r) = Qltb (ds (3 + c)%nat) (5 # 10) /\
   existsb is_brightness (snd r) = Qltb (ds (4 + c)%nat) (2 # 10)) /\
  (Qltb (ds (3 + c)%nat) (5 # 10) = false ->
   Qltb (ds (4 + c)%nat) (2 # 10) = false ->
   Qltb (ds (5 + c)%nat) (1 # 2) = false ->
   r = fst (call_compose (valid_transforms img_size) d (Rng ds c))).
Proof.
  intros Hg r Er.
  assert (Hf : forall n, Qltb (ds n) 1 = true)
    by (intros n; apply (unit_draw_fires _ n Hg)).
  assert (Ev : fst (call_compose (valid_transforms img_size) d (Rng ds c))
               = pure_run (transforms (valid_transforms img_size)) d).
  { rewrite call_compose_eq by (try reflexivity; apply Hf).
    apply run_certain; [reflexivity | apply unit_draws_shift, Hg]. }
  rewrite Ev. clear Ev.
  unfold valid_transforms, A_Compose; cbn [transforms pure_run].
  cbn [A_Resize A_PadIfNeeded A_Normalize t_op get_params rret fst
       apply_with_params pad_amounts].
  rewrite call_compose_eq in Er by (try reflexivity; apply Hf).
  unfold train_transforms, A_Compose, advance in Er; cbn [transforms draws cursor] in Er.
  step_in Er. rewrite orb_true_r in Er.
  destruct (cv_resize _ _ INTER_LINEAR (image d)) as [img|e];
    [|subst r; intros Hok; discriminate Hok].
  destruct (cv_resize _ _ INTER_NEAREST (mask d)) as [msk|e];
    [|subst r; intros Hok; discriminate Hok].
  cbn [rbind fst snd] in Er |- *.
  step_in Er. rewrite Hf in Er. cbn [orb fst snd] in Er.
  step_in Er.
  destruct (Qltb (ds (3 + c)%nat) (5 # 10)) eqn:Hflip;
    cbn [Nat.add] in Hflip; rewrite Hflip in Er; cbn [orb fst snd] in Er;
    step_in Er;
    destruct (Qltb (ds (4 + c)%nat) (2 # 10)) eqn:Hbc;
    cbn [Nat.add] in Hbc; rewrite Hbc in Er; cbn [orb fst snd] in Er;
    step_in Er.
  all: match type of Er with context [Qltb ?u (1 # 2)] =>
         destruct (Qltb u (1 # 2)) eqn:Hrot end;
       cbn [orb fst snd] in Er;
       step_in Er; rewrite Hf in Er; cbn [orb fst snd] in Er;
       cbn [run_transforms rret app] in Er; subst r; intros _;
       (split; [repeat split; reflexivity|]);
       intros H1 H2 H3; try discriminate H1; try discriminate H2;
       try (cbn [Nat.add] in H3; rewrite H3 in Hrot; discriminate Hrot);
       reflexivity.
Qed.

(** X5: when none of the three optional steps of the train pipeline fires
    (the draws of the flip and of the rotation are at least 0.5 and the draw
    of the brightness/contrast step is at least 0.2), a successful train
    call returns exactly what the validation pipeline returns on the same
    input, having applied the same transforms. *)
Theorem train_without_augmentation (img_size : nat * nat) (d : sample A)
    (g : rng) :
  unit_draws g ->
  is_ok (fst (fst (call_compose (train_transforms img_size) d g))) = true ->
  (5 # 10 <= draws g (3 + cursor g))%Q ->
  (2 # 10 <= draws g (4 + cursor g))%Q ->
  (1 # 2 <= draws g (5 + cursor g))%Q ->
  fst (call_compose (train_transforms img_size) d g)
  = fst (call_compose (valid_transforms img_size) d g).
Proof.
  intros Hg Hok H3 H4 H5. destruct g as [ds c]; cbn [draws cursor] in *.
  apply (train_run_cases img_size d ds c Hg _ eq_refl Hok);
    apply Qltb_ge; assumption.
Qed.

(** X6: every successful call of the train pipeline applies the resize, the
    padding and the normalization; it applies the horizontal flip exactly
    when the fourth draw of the call is below 0.5 and the
    brightness/contrast change exactly when the fifth draw is below 0.2. *)
Theorem train_applied_steps (img_size : nat * nat) (d : sample A) (g : rng) :
  unit_draws g ->
  let r := fst (call_compose (train_transforms img_size) d g) in
  is_ok (fst r) = true ->
  existsb is_resize (snd r) = true /\
  existsb is_pad (snd r) = true /\
  existsb is_normalize (snd r) = true /\
  existsb is_hflip (snd r) = Qltb (draws g (3 + cursor g)) (5 # 10) /\
  existsb is_brightness (snd r) = Qltb (draws g (4 + cursor g)) (2 # 10).
Proof.
  intros Hg r Hok. destruct g as [ds c]; cbn [draws cursor] in *.
  apply (train_run_cases img_size d ds c Hg _ eq_refl Hok).
Qed.

End Pipelines.

Lemma valid_transforms_output_witness :
  fst (fst (@call_compose _ ShapeOnly.kernels (valid_transforms (32, 16)%nat)
              (Sample (7, 9)%nat (3, 5)%nat) (ShapeOnly.constant (3 # 4))))
  = Ok (Sample (20, 36)%nat (20, 36)%nat).
Proof.
  apply (@valid_transforms_output _ ShapeOnly.kernels (32, 16)%nat
           (Sample (7, 9)%nat (3, 5)%nat) (ShapeOnly.constant (3 # 4))
           (16, 32)%nat (16, 32)%nat);
    [exact three_quarters_unit | reflexivity ..].
Defined.

Lemma train_without_augmentation_witness :
  fst (@call_compose _ ShapeOnly.kernels (train_transforms (32, 16)%nat)
         (Sample (7, 9)%nat (3, 5)%nat) (ShapeOnly.constant (3 # 4)))
  = fst (@call_compose _ ShapeOnly.kernels (valid_transforms (32, 16)%nat)
           (Sample (7, 9)%nat (3, 5)%nat) (ShapeOnly.constant (3 # 4))).
Proof.
  apply (@train_without_augmentation _ ShapeOnly.kernels (32, 16)%nat
           (Sample (7, 9)%nat (3, 5)%nat) (ShapeOnly.constant (3 # 4)));
    [exact three_quarters_unit | reflexivity | discriminate ..].
Defined.

Lemma train_applied_steps_witness :
  existsb is_hflip
    (snd (fst (@call_compose _ ShapeOnly.kernels (train_transforms (32, 16)%nat)
                 (Sample (7, 9)%nat (3, 5)%nat) (ShapeOnly.constant (1 # 4)))))
  = true /\
  existsb is_brightness
    (snd (fst (@call_compose _ ShapeOnly.kernels (train_transforms (32, 16)%nat)
                 (Sample (7, 9)%nat (3, 5)%nat) (ShapeOnly.constant (1 # 4)))))
  = false.
Proof.
  destruct (@train_applied_steps _ ShapeOnly.kernels (32, 16)%nat
              (Sample (7, 9)%nat (3, 5)%nat) (ShapeOnly.constant (1 # 4))
              quarter_unit eq_refl) as (_ & _ & _ & Hflip & Hbc).
  split; [exact Hflip | exact Hbc].
Defined.

End PipelineFacts.

(** ** Further properties of the mask binarizer *)

Module MaskFacts.
Import Binarizer BinarizerFacts.

(** X7: binarizing keeps the dimensions of the mask: the same number of
    rows, and in every row the same number of pixels. *)
Theorem binarize_keeps_dimensions (mask : hwc Z) :
  length (binarize mask) = length mask /\
  map (@length (px Z)) (binarize mask) = map (@length (px Z)) mask.
Proof.
  rewrite binarize_threshold. unfold hwc_map.
  split; [apply length_map|].
  rewrite map_map. apply map_ext. intros row. apply length_map.
Qed.

(** X8: binarizing commutes with the conversion from BGR to RGB: converting
    a decoded mask and then binarizing it, as [__getitem__] does, gives the
    same array as binarizing first and converting afterwards. *)
Theorem binarize_after_cvtColor (decoded : hwc Z) :
  rbind (cvtColor_BGR2RGB (Some decoded)) (fun mask => Ok (binarize mask))
  = cvtColor_BGR2RGB (Some (binarize decoded)).
Proof.
  simpl. rewrite !binarize_threshold. unfold hwc_map.
  f_equal. rewrite !map_map. apply map_ext. intros row.
  rewrite !map_map. apply map_ext. intros [x y z]. reflexivity.
Qed.

End MaskFacts.

(** ** Further properties of the segmentation dataset *)

Module SampleFacts.
Import Dataset DatasetFacts.

Lemma py_getitem_wrap {X} (l : list X) (i : Z) :
  - Z.of_nat (length l) <= i < 0 ->
  py_getitem l i = py_getitem l (Z.of_nat (length l) + i).
Proof.
  intros Hi. unfold py_getitem.
  replace (i <? 0) with true by (symmetry; apply Z.ltb_lt; lia).
  replace (Z.of_nat (length l) + i <? 0) with false
    by (symmetry; apply Z.ltb_ge; lia).
  reflexivity.
Qed.

Section Methods.
Context {A F : Type} `{Augment.Kernels A}.
Variable get_label_mask : A -> list nat -> list (px Z) -> result (list (list Z)).
Variable cv_imread : string -> option (hwc Z).
Variable astype_float32 : hwc Z -> A.
Variable chw_tensor : A -> tensor F.

Local Abbreviation getitem :=
  (getitem get_label_mask cv_imread astype_float32 chw_tensor).

(** X9: the order in which an access fails.  An index outside the image
    path list raises [IndexError]; otherwise an image that cannot be read
    raises the OpenCV error, whatever the mask path list holds; otherwise,
    with the mask path found, a mask that cannot be read raises the OpenCV
    error.  In each case nothing has been drawn from the generator and the
    object is as before. *)
Theorem getitem_failure_order (h : heap) (index : Z) :
  (forall e, py_getitem (image_paths (self h)) index = Raise e ->
     getitem index h = (Raise IndexError, h)) /\
  (forall path,
     py_getitem (image_paths (self h)) index = Ok path ->
     cv_imread path = None ->
     getitem index h = (Raise CvError, h)) /\
  (forall path img mask_path,
     py_getitem (image_paths (self h)) index = Ok path ->
     cv_imread path = Some img ->
     py_getitem (mask_paths (self h)) index = Ok mask_path ->
     cv_imread mask_path = None ->
     getitem index h = (Raise CvError, h)).
Proof.
  unfold Dataset.getitem, mbind, attr, eval.
  split; [|split].
  - intros e He. rewrite He. now rewrite (py_getitem_raises _ _ _ He).
  - intros path Hp Hr. rewrite Hp, Hr. reflexivity.
  - intros path img mp Hp Hr Hm Hmr. rewrite Hp, Hr; simpl.
    rewrite Hm, Hmr. reflexivity.
Qed.

(** X10: an access that returns has found both paths and read both files:
    no sample is ever returned for an index outside either path list or for
    a file that cannot be read. *)
Theorem getitem_success_reads (h : heap) (index : Z)
    (out : tensor F * tensor Z) :
  fst (getitem index h) = Ok out ->
  exists path mask_path img msk,
    py_getitem (image_paths (self h)) index = Ok path /\
    cv_imread path = Some img /\
    py_getitem (mask_paths (self h)) index = Ok mask_path /\
    cv_imread mask_path = Some msk.
Proof.
  unfold Dataset.getitem, mbind, attr, eval.
  destruct (py_getitem (image_paths (self h)) index) as [path|e];
    [|discriminate].
  destruct (cv_imread path) as [img|] eqn:Hr; [|discriminate]. simpl.
  destruct (py_getitem (mask_paths (self h)) index) as [mp|e];
    [|discriminate].
  destruct (cv_imread mp) as [msk|] eqn:Hmr; [|discriminate].
  intros _. exists path, mp, img, msk. repeat split; assumption.
Qed.

Lemma astype_uint8_range (m : list (list Z)) :
  Forall (fun v => 0 <= v < 256) (concat (astype_uint8 m)).
Proof.
  unfold astype_uint8. apply Forall_concat, Forall_forall.
  intros row [row' [<- _]]%list_elem_of_In%in_map_iff.
  apply Forall_forall. intros v [v' [<- _]]%list_elem_of_In%in_map_iff.
  apply Z.mod_pos_bound. lia.
Qed.

(** X11: the label tensor of a returned sample holds only values from 0 to
    255, whatever the label mapper produced: its result goes through an
    8-bit conversion, so a class index of 256 or more does not survive. *)
Theorem getitem_label_range (h : heap) (index : Z)
    (out : tensor F * tensor Z) :
  fst (getitem index h) = Ok out ->
  Forall (fun v => 0 <= v < 256) (t_data (snd out)).
Proof.
  unfold Dataset.getitem, mbind, attr, eval, with_rng, mret.
  destruct (py_getitem (image_paths (self h)) index) as [path|e];
    [|discriminate].
  destruct (cv_imread path) as [img|]; [|discriminate]. simpl.
  destruct (py_getitem (mask_paths (self h)) index) as [mp|e];
    [|discriminate].
  destruct (cv_imread mp) as [msk|]; [|discriminate]. simpl.
  destruct (Augment.call_compose _ _ _) as [[[d'|e] tr] g']; [|discriminate].
  simpl.
  destruct (get_label_mask _ _ _) as [lm|e]; [|discriminate]. simpl.
  intros [= <-]. simpl. apply astype_uint8_range.
Qed.

(** X12: on a dataset whose two path lists have the same length, a negative
    index counts from the end: an access at [index] between minus the length
    and -1 does exactly what the access at [length + index] does. *)
Theorem getitem_negative_index (h : heap) (index : Z) :
  length (image_paths (self h)) = length (mask_paths (self h)) ->
  - Z.of_nat (len (self h)) <= index < 0 ->
  getitem index h = getitem (Z.of_nat (len (self h)) + index) h.
Proof.
  intros Hlen Hi. unfold len in *.
  unfold Dataset.getitem, mbind, attr, eval.
  rewrite (py_getitem_wrap (image_paths (self h)) index Hi).
  rewrite (py_getitem_wrap (mask_paths (self h)) index) by (rewrite <- Hlen; exact Hi).
  rewrite <- Hlen. reflexivity.
Qed.

(** X13: samples of a dataset that carries the validation pipeline are
    reproducible: an access returns the same tensors, or raises the same
    exception, whatever the generator holds. *)
Theorem getitem_valid_reproducible (ds : dataset) (img_size : nat * nat)
    (index : Z) (g1 g2 : rng) :
  tfms ds = valid_transforms img_size ->
  unit_draws g1 -> unit_draws g2 ->
  fst (getitem index (Heap ds g1)) = fst (getitem index (Heap ds g2)).
Proof.
  intros Ht H1 H2.
  unfold Dataset.getitem, mbind, attr, eval, with_rng, mret; simpl.
  destruct (py_getitem (image_paths ds) index) as [path|e]; [|reflexivity].
  destruct (cv_imread path) as [img|]; [|reflexivity]. simpl.
  destruct (py_getitem (mask_paths ds) index) as [mp|e]; [|reflexivity].
  destruct (cv_imread mp) as [msk|]; [|reflexivity]. simpl.
  rewrite Ht.
  match goal with
  | |- context [Augment.call_compose ?c ?d g1] =>
      assert (E : fst (Augment.call_compose c d g1)
                  = fst (Augment.call_compose c d g2))
  end.
  { rewrite !AugmentFacts.call_compose_eq
      by (try reflexivity; apply AugmentFacts.unit_draw_fires; assumption).
    rewrite !AugmentFacts.run_certain;
      try reflexivity; try (apply AugmentFacts.unit_draws_shift; assumption). }
  destruct (Augment.call_compose _ _ g1) as [r1 g1'].
  destruct (Augment.call_compose _ _ g2) as [r2 g2'].
  simpl in E. subst r2.
  destruct r1 as [[d'|e] tr]; [|reflexivity]. simpl.
  destruct (get_label_mask _ _ _); reflexivity.
Qed.

End Methods.

(** *** Concrete accesses *)

Lemma getitem_failure_order_witness :
  Readable.getitem 2 (Heap Readable.valid_set (ShapeOnly.constant (1 # 4)))
  = (Raise CvError, Heap Readable.valid_set (ShapeOnly.constant (1 # 4))) /\
  Readable.getitem 3 (Heap Readable.valid_set (ShapeOnly.constant (1 # 4)))
  = (Raise IndexError, Heap Readable.valid_set (ShapeOnly.constant (1 # 4))).
Proof.
  destruct (@getitem_failure_order _ _ ShapeOnly.kernels Readable.label_mask
              Readable.imread Toy.toy_float32 Toy.toy_chw
              (Heap Readable.valid_set (ShapeOnly.constant (1 # 4))) 2)
    as (_ & Hread & _).
  destruct (@getitem_failure_order _ _ ShapeOnly.kernels Readable.label_mask
              Readable.imread Toy.toy_float32 Toy.toy_chw
              (Heap Readable.valid_set (ShapeOnly.constant (1 # 4))) 3)
    as (Hidx & _ & _).
  split.
  - apply (Hread "missing.png"%string); reflexivity.
  - apply (Hidx IndexError); reflexivity.
Defined.

Lemma getitem_success_reads_witness :
  exists path mask_path img msk,
    py_getitem (image_paths Readable.valid_set) 1 = Ok path /\
    Readable.imread path = Some img /\
    py_getitem (mask_paths Readable.valid_set) 1 = Ok mask_path /\
    Readable.imread mask_path = Some msk.
Proof.
  eapply (@getitem_success_reads _ _ ShapeOnly.kernels Readable.label_mask
            Readable.imread Toy.toy_float32 Toy.toy_chw
            (Heap Readable.valid_set (ShapeOnly.constant (1 # 4))) 1).
  vm_compute. reflexivity.
Defined.

Lemma getitem_label_range_witness :
  exists out,
    fst (Readable.getitem 1 (Heap Readable.valid_set (ShapeOnly.constant (1 # 4))))
    = Ok out /\
    Forall (fun v => 0 <= v < 256) (t_data (snd out)).
Proof.
  eexists. split; [vm_compute; reflexivity|].
  eapply (@getitem_label_range _ _ ShapeOnly.kernels Readable.label_mask
            Readable.imread Toy.toy_float32 Toy.toy_chw
            (Heap Readable.valid_set (ShapeOnly.constant (1 # 4))) 1).
  vm_compute. reflexivity.
Defined.

Lemma getitem_negative_index_witness :
  Readable.getitem (-2) (Heap Readable.valid_set (ShapeOnly.constant (1 # 4)))
  = Readable.getitem 1 (Heap Readable.valid_set (ShapeOnly.constant (1 # 4))).
Proof.
  apply (@getitem_negative_index _ _ ShapeOnly.kernels Readable.label_mask
           Readable.imread Toy.toy_float32 Toy.toy_chw
           (Heap Readable.valid_set (ShapeOnly.constant (1 # 4))) (-2));
    [reflexivity | unfold len; simpl; lia].
Defined.

Lemma getitem_valid_reproducible_witness :
  fst (Readable.getitem 1 (Heap Readable.valid_set (ShapeOnly.constant (1 # 4))))
  = fst (Readable.getitem 1 (Heap Readable.valid_set (ShapeOnly.constant (3 # 4)))).
Proof.
  apply (@getitem_valid_reproducible _ _ ShapeOnly.kernels Readable.label_mask
           Readable.imread Toy.toy_float32 Toy.toy_chw
           Readable.valid_set (32, 16)%nat 1);
    [reflexivity | exact AugmentFacts.quarter_unit
     | exact AugmentFacts.three_quarters_unit].
Defined.

End SampleFacts.

(** ** Further properties of the batch collator *)

Module StackFacts.
Import Collate CollateFacts.

Section Stack.
Context {E : Type}.

Lemma concat_uniform_length {X} (n : nat) (ls : list (list X)) :
  Forall (fun l => length l = n) ls ->
  length (concat ls) = (length ls * n)%nat.
Proof.
  induction 1 as [|l ls Hl _ IH]; simpl; [reflexivity|].
  rewrite length_app, IH, Hl. reflexivity.
Qed.

Lemma torch_stack_well_formed (ts : list (tensor E)) (r : tensor E) :
  torch_stack ts = Ok r -> Forall well_formed ts ->
  well_formed r /\ hd 0%nat (t_shape r) = length ts.
Proof.
  intros Hr Hw.
  destruct (torch_stack_ok_inv ts r Hr) as [s Hs].
  assert (Hne : ts <> []) by (destruct ts; [discriminate | congruence]).
  rewrite (torch_stack_ok s ts Hne Hs) in Hr. injection Hr as <-.
  split; [|reflexivity].
  unfold well_formed; simpl.
  rewrite (concat_uniform_length (numel s)), length_map; [reflexivity|].
  apply Forall_forall. intros l [t [<- Hin]]%list_elem_of_In%in_map_iff.
  apply list_elem_of_In in Hin.
  rewrite Forall_forall in Hs, Hw.
  rewrite <- (Hs t Hin). apply Hw, Hin.
Qed.

End Stack.

Section CollateFn.
Context {E L : Type}.

(** X14: collation succeeds exactly on a non-empty sequence in which all
    images have one shape and all labels have one shape, of whatever rank;
    on every other sequence it raises, and the only exception it raises is
    the run-time error of the stacking. *)
Theorem collate_fn_succeeds_iff (inputs : list (tensor E * tensor L)) :
  (is_ok (collate_fn inputs) = true <-> inputs <> [] /\ ~ ragged inputs) /\
  (forall e, collate_fn inputs = Raise e -> e = RuntimeError).
Proof.
  split.
  - split.
    + unfold collate_fn; cbv zeta.
      destruct (torch_stack (map fst inputs)) as [images|e] eqn:E1;
        [|discriminate]. simpl.
      destruct (torch_stack (map snd inputs)) as [labels|e] eqn:E2;
        [|discriminate]. intros _.
      split; [intros ->; discriminate|].
      intros (i & j & s & s' & Hi & Hj & Hdiff).
      destruct (torch_stack_ok_inv _ _ E1) as [s1 H1].
      destruct (torch_stack_ok_inv _ _ E2) as [s2 H2].
      rewrite Forall_lookup in H1. rewrite Forall_lookup in H2.
      assert (F : forall k x, inputs !! k = Some x ->
                    t_shape (fst x) = s1 /\ t_shape (snd x) = s2).
      { intros k x Hk; split; [apply (H1 k) | apply (H2 k)];
          rewrite lookup_map, Hk; reflexivity. }
      destruct (F i s Hi) as [A1 A2], (F j s' Hj) as [B1 B2].
      destruct Hdiff as [D | D]; apply D; congruence.
    + intros [Hne Hr].
      destruct inputs as [|s0 rest] eqn:Ein; [congruence|]. rewrite <- Ein in *.
      assert (F : forall k x, inputs !! k = Some x ->
                    t_shape (fst x) = t_shape (fst s0) /\
                    t_shape (snd x) = t_shape (snd s0)).
      { intros k x Hk.
        destruct (decide (t_shape (fst x) = t_shape (fst s0))) as [e1|n1];
          [destruct (decide (t_shape (snd x) = t_shape (snd s0))) as [e2|n2]|].
        - split; assumption.
        - exfalso. apply Hr. exists k, 0%nat, x, s0.
          rewrite Ein at 2. repeat split; auto.
        - exfalso. apply Hr. exists k, 0%nat, x, s0.
          rewrite Ein at 2. repeat split; auto. }
      unfold collate_fn; cbv zeta.
      rewrite (torch_stack_ok (t_shape (fst s0))), (torch_stack_ok (t_shape (snd s0))).
      * reflexivity.
      * rewrite Ein; simpl; congruence.
      * apply Forall_lookup. intros k t Hk. rewrite lookup_map in Hk.
        destruct (inputs !! k) as [x|] eqn:Hx; [|discriminate].
        injection Hk as <-. apply (F k x Hx).
      * rewrite Ein; simpl; congruence.
      * apply Forall_lookup. intros k t Hk. rewrite lookup_map in Hk.
        destruct (inputs !! k) as [x|] eqn:Hx; [|discriminate].
        injection Hk as <-. apply (F k x Hx).
  - intros e. unfold collate_fn; cbv zeta.
    destruct (torch_stack (map fst inputs)) as [images|e1] eqn:E1; simpl.
    + destruct (torch_stack (map snd inputs)) as [labels|e2] eqn:E2; simpl;
        [discriminate|].
      intros [= <-]. apply (torch_stack_raises _ _ E2).
    + intros [= <-]. apply (torch_stack_raises _ _ E1).
Qed.

(** X15: a batch built from well-formed samples is well-formed: it holds
    an image tensor under key 0 and a label tensor under key 1, each with
    one element per position of its shape and with the number of samples as
    its leading dimension. *)
Theorem collate_fn_well_formed (inputs : list (tensor E * tensor L))
    (batch : dict (tensor E + tensor L)) :
  collate_fn inputs = Ok batch ->
  Forall (fun s => well_formed (fst s) /\ well_formed (snd s)) inputs ->
  exists images labels,
    batch = [(0, inl images); (1, inr labels)] /\
    well_formed images /\ hd 0%nat (t_shape images) = length inputs /\
    well_formed labels /\ hd 0%nat (t_shape labels) = length inputs.
Proof.
  unfold collate_fn; cbv zeta. intros Hb Hw.
  destruct (torch_stack (map fst inputs)) as [images|e] eqn:E1;
    [|discriminate]. simpl in Hb.
  destruct (torch_stack (map snd inputs)) as [labels|e] eqn:E2;
    [|discriminate]. simpl in Hb. injection Hb as <-.
  destruct (Forall_map_fst (P := well_formed) (Q := well_formed) inputs Hw)
    as [Hi Hl].
  destruct (torch_stack_well_formed _ _ E1 Hi) as [Wi Li].
  destruct (torch_stack_well_formed _ _ E2 Hl) as [Wl Ll].
  rewrite length_map in Li, Ll.
  exists images, labels. repeat split; assumption.
Qed.

End CollateFn.

Lemma collate_fn_succeeds_iff_witness :
  is_ok (collate_fn [(Tensor [2]%nat [1; 2], Tensor [] [5]);
                     (Tensor [2]%nat [3; 4], Tensor [] [6])]) = true.
Proof.
  apply (proj1 (collate_fn_succeeds_iff _)). split; [discriminate|].
  intros (i & j & s & s' & Hi & Hj & Hdiff).
  destruct i as [|[|i]], j as [|[|j]]; simpl in Hi, Hj; try discriminate;
    injection Hi as <-; injection Hj as <-; simpl in Hdiff;
    destruct Hdiff as [D|D]; apply D; reflexivity.
Defined.

Lemma collate_fn_well_formed_witness :
  exists images labels,
    [(0, inl (Tensor [2; 2]%nat [1; 2; 3; 4])); (1, inr (Tensor [2]%nat [5; 6]))]
    = [(0, @inl (tensor Z) (tensor Z) images); (1, inr labels)] /\
    well_formed images /\ hd 0%nat (t_shape images) = 2%nat /\
    well_formed labels /\ hd 0%nat (t_shape labels) = 2%nat.
Proof.
  apply (collate_fn_well_formed
           [(Tensor [2]%nat [1; 2], Tensor [] [5]);
            (Tensor [2]%nat [3; 4], Tensor [] [6])]).
  - reflexivity.
  - repeat constructor.
Defined.

End StackFacts.

(** ** Properties of the dataset factory and of the loaders *)

Module FactoryFacts.
Import Factory.

Section GetDataset.
Variable set_class_values : list string -> list string -> result (list nat).

(** X16: [get_dataset] succeeds exactly when [set_class_values] does, and
    passes its exception on otherwise.  The two datasets it returns carry
    the same class values and reference colours; the first carries the
    train pipeline and the second the validation pipeline for the given
    size; their lengths are the lengths of the two image path lists,
    whatever the mask path lists are. *)
Theorem get_dataset_pair
    (train_image_paths train_mask_paths valid_image_paths valid_mask_paths
       : list string)
    (all_classes classes_to_train : list string)
    (label_colors_list : list (px Z)) (img_size : nat * nat) :
  let r := get_dataset set_class_values train_image_paths train_mask_paths
             valid_image_paths valid_mask_paths all_classes classes_to_train
             label_colors_list img_size in
  (forall e, set_class_values all_classes classes_to_train = Raise e ->
     r = Raise e) /\
  (forall cv, set_class_values all_classes classes_to_train = Ok cv ->
     exists train valid,
       r = Ok (train, valid) /\
       Dataset.class_values train = cv /\ Dataset.class_values valid = cv /\
       Dataset.label_colors_list train = label_colors_list /\
       Dataset.label_colors_list valid = label_colors_list /\
       Dataset.tfms train = train_transforms img_size /\
       Dataset.tfms valid = valid_transforms img_size /\
       Dataset.len train = length train_image_paths /\
       Dataset.len valid = length valid_image_paths).
Proof.
  cbv zeta. unfold get_dataset, Dataset.init.
  split.
  - intros e ->. reflexivity.
  - intros cv ->. simpl. do 2 eexists. repeat split.
Qed.

End GetDataset.

Lemma get_dataset_pair_witness :
  exists train valid,
    get_dataset set_class_values_spec ["a.png"; "b.png"]%string ["ma.png"]%string
      ["c.png"]%string [] ["bg"; "road"; "car"]%string ["road"; "car"]%string
      [Px 0 0 0; Px 255 255 255; Px 255 0 0] (32, 16)%nat = Ok (train, valid) /\
    Dataset.class_values train = [1; 2]%nat /\
    Dataset.len train = 2%nat /\ Dataset.len valid = 1%nat.
Proof.
  destruct (proj2 (get_dataset_pair set_class_values_spec
              ["a.png"; "b.png"]%string ["ma.png"]%string ["c.png"]%string []
              ["bg"; "road"; "car"]%string ["road"; "car"]%string
              [Px 0 0 0; Px 255 255 255; Px 255 0 0] (32, 16)%nat)
              [1; 2]%nat eq_refl)
    as (train & valid & Hr & Ht & _ & _ & _ & _ & _ & Hlt & Hlv).
  exists train, valid. repeat split; assumption.
Defined.

(** *** The batch loop *)

Lemma batch_loop_concat (bs : nat) (sampler batch : list nat) :
  concat (batch_loop bs false sampler batch) = batch ++ sampler.
Proof.
  revert batch; induction sampler as [|idx rest IH]; intros batch; simpl.
  - destruct batch; simpl; [reflexivity | now rewrite !app_nil_r].
  - destruct (_ =? bs)%nat; simpl; rewrite IH, <- ?app_assoc; reflexivity.
Qed.

Lemma batch_loop_sizes (bs : nat) (sampler : list nat) :
  forall batch, (length batch < bs)%nat ->
  forall i b, batch_loop bs false sampler batch !! i = Some b ->
    (0 < length b <= bs)%nat /\
    (S i < length (batch_loop bs false sampler batch) -> length b = bs)%nat.
Proof.
  induction sampler as [|idx rest IH]; intros batch Hlt i b; simpl.
  - destruct batch as [|x batch]; simpl; [intros [=]|].
    destruct i; simpl; [|intros [=]].
    intros [= <-]. simpl in *. split; lia.
  - destruct (Nat.eqb_spec (length (batch ++ [idx])) bs) as [Heq|Hne].
    + destruct i; simpl.
      * intros [= <-]. split; [|intros _; exact Heq].
        rewrite Heq. rewrite length_app in Heq. simpl in Heq. lia.
      * intros Hb. destruct (IH [] ltac:(simpl; lia) i b Hb) as [H1 H2].
        split; [exact H1 | intros Hi; apply H2; lia].
    + apply IH. rewrite length_app in *. simpl in *. lia.
Qed.

Lemma batch_loop_count (bs : nat) (sampler : list nat) :
  forall batch, (length batch < bs)%nat ->
  length (batch_loop bs false sampler batch)
  = ((length batch + length sampler + bs - 1) / bs)%nat.
Proof.
  induction sampler as [|idx rest IH]; intros batch Hlt.
  - destruct batch as [|x batch].
    + symmetry. apply Nat.div_small. simpl. lia.
    + change (1%nat = ((length (x :: batch) + 0 + bs - 1) / bs)%nat).
      apply (Nat.div_unique _ _ 1 (length batch)); simpl in *; lia.
  - cbn [batch_loop].
    destruct (Nat.eqb_spec (length (batch ++ [idx])) bs) as [Heq|Hne].
    + cbn [length]. rewrite IH by (simpl; lia).
      rewrite length_app in Heq. cbn [length] in *.
      replace (length batch + S (length rest) + bs - 1)%nat
        with (length rest + bs - 1 + 1 * bs)%nat by lia.
      rewrite Nat.div_add by lia. rewrite Nat.add_0_l. lia.
    + rewrite IH by (rewrite length_app in *; simpl in *; lia).
      rewrite length_app. cbn [length]. f_equal. lia.
Qed.

(** What a successful [get_data_loaders] returned. *)
Lemma get_data_loaders_ok (train valid : Dataset.dataset) (bs : Z)
    (tl vl : loader) :
  get_data_loaders train valid bs = Ok (tl, vl) ->
  0 < bs /\
  tl = Loader train bs false 8 true /\
  vl = Loader valid bs false 8 false.
Proof.
  unfold get_data_loaders, DataLoader. simpl.
  destruct (Dataset.len train =? 0)%nat; [discriminate|].
  destruct (Z.leb_spec bs 0); [discriminate|]. simpl.
  intros [= <- <-]. repeat split. lia.
Qed.

(** X17: one pass over either loader visits every sample of its dataset
    exactly once and drops none: the batches of the validation loader, laid
    end to end, are the indices 0, 1, ..., len - 1 in this order, and the
    batches of the train loader are the indices in the order its shuffling
    put them. *)
Theorem loaders_visit_every_index (train valid : Dataset.dataset) (bs : Z)
    (tl vl : loader) (order : list nat) :
  get_data_loaders train valid bs = Ok (tl, vl) ->
  Permutation order (seq 0 (Dataset.len train)) ->
  concat (index_batches tl order) = order /\
  Permutation (concat (index_batches tl order)) (seq 0 (Dataset.len train)) /\
  concat (index_batches vl order) = seq 0 (Dataset.len valid).
Proof.
  intros Hl Hp.
  destruct (get_data_loaders_ok _ _ _ _ _ Hl) as (_ & -> & ->).
  unfold index_batches, batch_sampler, sequential; simpl.
  rewrite !batch_loop_concat; simpl. repeat split. exact Hp.
Qed.

(** X18: the batches of either loader are never empty and never longer
    than the batch size; all but the last have exactly the batch size, the
    last one is kept when it is shorter; and their number is the number of
    samples divided by the batch size, rounded up. *)
Theorem loaders_batch_sizes (train valid : Dataset.dataset) (bs : Z)
    (tl vl : loader) (order : list nat) :
  get_data_loaders train valid bs = Ok (tl, vl) ->
  length order = Dataset.len train ->
  forall l, l = tl \/ l = vl ->
    let batches := index_batches l order in
    let n := Dataset.len (dataset l) in
    length batches = ((n + Z.to_nat bs - 1) / Z.to_nat bs)%nat /\
    forall i b, batches !! i = Some b ->
      (0 < length b <= Z.to_nat bs)%nat /\
      (S i < length batches -> length b = Z.to_nat bs)%nat.
Proof.
  intros Hl Ho l Hcase.
  destruct (get_data_loaders_ok _ _ _ _ _ Hl) as (Hbs & -> & ->).
  assert (Hpos : (0 < Z.to_nat bs)%nat) by lia.
  destruct Hcase as [-> | ->];
    unfold index_batches, batch_sampler, sequential; simpl; split;
    try (rewrite batch_loop_count by (simpl; lia); simpl;
         rewrite ?length_seq, ?Ho; reflexivity);
    intros i b Hb; exact (batch_loop_sizes _ _ [] Hpos i b Hb).
Qed.

Lemma loaders_visit_every_index_witness :
  exists tl vl,
    get_data_loaders Readable.valid_set Toy.toy_dataset 2 = Ok (tl, vl) /\
    concat (index_batches tl [2; 0; 1]%nat) = [2; 0; 1]%nat /\
    concat (index_batches vl [2; 0; 1]%nat) = [0%nat].
Proof.
  do 2 eexists. split; [reflexivity|].
  destruct (loaders_visit_every_index Readable.valid_set Toy.toy_dataset 2
              _ _ [2; 0; 1]%nat eq_refl) as (Ht & _ & Hv).
  - simpl. apply perm_trans with [0; 2; 1]%nat;
      [apply perm_swap | apply perm_skip, perm_swap].
  - split; [exact Ht | exact Hv].
Defined.

Lemma loaders_batch_sizes_witness :
  exists tl vl,
    get_data_loaders Readable.valid_set Toy.toy_dataset 2 = Ok (tl, vl) /\
    length (index_batches tl [2; 0; 1]%nat) = 2%nat /\
    length (index_batches vl [2; 0; 1]%nat) = 1%nat.
Proof.
  do 2 eexists. split; [reflexivity|].
  split.
  - apply (loaders_batch_sizes Readable.valid_set Toy.toy_dataset 2
             _ _ [2; 0; 1]%nat eq_refl eq_refl _ (or_introl eq_refl)).
  - apply (loaders_batch_sizes Readable.valid_set Toy.toy_dataset 2
             _ _ [2; 0; 1]%nat eq_refl eq_refl _ (or_intror eq_refl)).
Defined.

End FactoryFacts.
